(** * The Tuya integration: registry pruning, device listener, entry setup

    A shallow embedding of [homeassistant/components/tuya/__init__.py].
    Python dicts are [gmap]s, Python sets are [gset]s, and the objects a
    config entry builds (listener, device manager, message queue) are fields
    of one [World] record that every operation threads through.  Exceptions
    are values of [Outcome]; the world after the exception is kept, because
    whatever was mutated before the raise stays mutated. *)

From stdpp Require Import gmap strings list fin_maps.

Local Open Scope string_scope.
Local Open Scope list_scope.

(** ** Constants of [tuya/const.py]

    The names imported from [.const] are parameters of the development: no
    property below depends on what the strings are, and the one that needs
    two of them to differ says so.  [ExampleConst] is one choice of them,
    used by the closed examples. *)

Class Const := {
  DOMAIN : string;
  CONF_ACCESS_ID : string;
  CONF_ACCESS_SECRET : string;
  CONF_APP_TYPE : string;
  CONF_AUTH_TYPE : string;
  CONF_COUNTRY_CODE : string;
  CONF_ENDPOINT : string;
  CONF_PASSWORD : string;
  CONF_PROJECT_TYPE : string;
  CONF_USERNAME : string;
  PLATFORMS : list string;
  TUYA_DISCOVERY_NEW : string;
  TUYA_HA_SIGNAL_UPDATE_ENTITY : string
}.

Definition ExampleConst : Const := {|
  DOMAIN := "tuya";
  CONF_ACCESS_ID := "access_id";
  CONF_ACCESS_SECRET := "access_secret";
  CONF_APP_TYPE := "tuya_app_type";
  CONF_AUTH_TYPE := "auth_type";
  CONF_COUNTRY_CODE := "country_code";
  CONF_ENDPOINT := "endpoint";
  CONF_PASSWORD := "password";
  CONF_PROJECT_TYPE := "tuya_project_type";
  CONF_USERNAME := "username";
  PLATFORMS := ["light"; "switch"];
  TUYA_DISCOVERY_NEW := "tuya_discovery_new";
  TUYA_HA_SIGNAL_UPDATE_ENTITY := "tuya_entry_update"
|}.

(** ** Data model *)

(** A [TuyaDevice] as the integration reads it: [device.id] and
    [device.status]. *)
Record TuyaDevice := mkDevice {
  id : string;
  status : string
}.

(** A device-registry entry.  [identifiers] is a Python set of
    [(domain, identity)] tuples; it is kept as a list in the order the
    [for item in ...] loop visits it.  The entry's own [id] is the key under
    which the registry stores it. *)
Record DeviceEntry := mkEntry {
  identifiers : list (string * string)
}.

(** ** The device registry

    [homeassistant.helpers.device_registry] lives outside
    [tuya/__init__.py]; the integration sees [devices], a dict from entry id
    to entry, and two methods. *)
Module device_registry.

(** Modelled from the spec: the body of
    [device_registry_object.async_remove_device(dev_id)] is missing.  The
    spec's registry is "a key-value store" whose delete is "remove if
    present". *)
Definition async_remove_device (devices : gmap string DeviceEntry)
    (dev_id : string) : gmap string DeviceEntry :=
  delete dev_id devices.

Definition identified_by (idf : string * string) (kv : string * DeviceEntry) : Prop :=
  idf ∈ identifiers kv.2.

#[global] Instance identified_by_dec idf kv : Decision (identified_by idf kv).
Proof. unfold identified_by. apply _. Defined.

(** Modelled from the spec: the body of
    [device_registry_object.async_get_device(identifiers={idf})] is missing.
    The spec's registry has "identity-based lookup": the result is a stored
    entry that carries the identifier, together with its id, or [None]. *)
Definition async_get_device (devices : gmap string DeviceEntry)
    (idf : string * string) : option (string * DeviceEntry) :=
  snd <$> list_find (identified_by idf) (map_to_list devices).

End device_registry.

(** ** [cleanup_device_registry] *)
Section Cleanup.
Context `{Const}.

(** The test of the inner loop:
    [DOMAIN == item[0] and item[1] not in device_manager.device_map]. *)
Definition stale_item (device_map : gmap string TuyaDevice)
    (item : string * string) : bool :=
  bool_decide (DOMAIN = item.1) && bool_decide (device_map !! item.2 = None).

(** The inner loop [for item in device_entry.identifiers]: the first stale
    item removes the entry and breaks out. *)
Fixpoint cleanup_entry (device_map : gmap string TuyaDevice)
    (devices : gmap string DeviceEntry) (dev_id : string)
    (items : list (string * string)) : gmap string DeviceEntry :=
  match items with
  | [] => devices
  | item :: rest =>
      if stale_item device_map item
      then device_registry.async_remove_device devices dev_id
      else cleanup_entry device_map devices dev_id rest
  end.

(** The outer loop runs over [list(devices.items())], a snapshot taken
    before anything is removed. *)
Definition cleanup_device_registry (device_map : gmap string TuyaDevice)
    (devices : gmap string DeviceEntry) : gmap string DeviceEntry :=
  foldl (λ devs '(dev_id, device_entry),
           cleanup_entry device_map devs dev_id (identifiers device_entry))
        devices (map_to_list devices).

(** An entry is stale when one of its identifiers carries this
    integration's tag and names an identity the directory lacks. *)
Definition stale (device_map : gmap string TuyaDevice) (e : DeviceEntry) : Prop :=
  ∃ x, (DOMAIN, x) ∈ identifiers e ∧ device_map !! x = None.

(** An entry belongs to another provider when none of its identifiers
    carries this integration's tag. *)
Definition foreign (e : DeviceEntry) : Prop :=
  ∀ item, item ∈ identifiers e → item.1 ≠ DOMAIN.

(** The scenario of the specification: the directory knows A and B, the
    registry holds one entry of this integration for each of A, B and C. *)
Definition scenario_directory : gmap string TuyaDevice :=
  <["A" := mkDevice "A" ""]> (<["B" := mkDevice "B" ""]> ∅).

Definition scenario_registry : gmap string DeviceEntry :=
  <["reg-a" := mkEntry [(DOMAIN, "A")]]>
    (<["reg-b" := mkEntry [(DOMAIN, "B")]]>
       (<["reg-c" := mkEntry [(DOMAIN, "C")]]> ∅)).

Definition scenario_pruned : gmap string DeviceEntry :=
  <["reg-a" := mkEntry [(DOMAIN, "A")]]>
    (<["reg-b" := mkEntry [(DOMAIN, "B")]]> ∅).

End Cleanup.


(** ** Exceptions and the world *)

Inductive Exn :=
  | KeyError (key : string)
  | ValueError.

Inductive Outcome (A : Type) :=
  | Return (a : A)
  | Raise (e : Exn).
Arguments Return {A} a.
Arguments Raise {A} e.

(** Values found in [entry.data] and in a login response. *)
Inductive Value :=
  | VNone
  | VBool (b : bool)
  | VInt (n : Z)
  | VStr (s : string).

(** [tuya_iot.AuthType], the vendor SDK's enum; the integration only
    compares against [AuthType.CUSTOM]. *)
Inductive AuthType := SMART_HOME | CUSTOM.

#[global] Instance AuthType_eq_dec : EqDecision AuthType.
Proof. solve_decision. Defined.

(** [tuya_iot.TuyaOpenAPI], as constructed by [_init_tuya_sdk]. *)
Record TuyaOpenAPI := mkAPI {
  endpoint : Value;
  access_id : Value;
  access_secret : Value;
  auth_type : AuthType;
  dev_channel : string
}.

(** Modelled from the spec: the class [tuya_iot.TuyaOpenMQ] belongs to the
    vendor SDK and its body is missing.  The spec's session is not running
    before [start], [Active] after it, and stopped by [stop], which is
    "idempotent if already Stopped". *)
Inductive MqStatus := MqCreated | MqActive | MqStopped.

#[global] Instance MqStatus_eq_dec : EqDecision MqStatus.
Proof. solve_decision. Defined.

Record TuyaOpenMQ := mkMQ {
  mq_api : TuyaOpenAPI;
  mq_status : MqStatus;
  (** whether [device_manager.on_message] is among [message_listeners] *)
  mq_listening : bool
}.

(** One [dispatcher_send(hass, signal, *args)] call. *)
Record Signal := mkSignal {
  signal : string;
  args : list (list string)
}.

(** A callback queued with [hass.add_job]; the only one this file queues is
    the bound method [self.async_remove_device] with its argument. *)
Inductive Job := JobRemoveDevice (device_id : string).

(** The [NamedTuple] kept in [hass.data].  Its fields are object references;
    the objects one setup builds are named by the number of the message
    queue they were built around. *)
Record HomeAssistantTuyaData := mkData {
  device_listener : nat;
  device_manager : nat;
  home_manager : nat
}.

(** The process state one config entry's code reads and writes.  The fields
    from [api] on are the [DeviceListener] with the [TuyaDeviceManager] it
    refers to: [self.device_manager.api], [self.device_manager.mq],
    [self.device_manager.device_map], whether the manager still calls the
    listener, and [self.device_ids]. *)
Record World := mkWorld {
  data : gmap string (gmap string HomeAssistantTuyaData);
  devices : gmap string DeviceEntry;
  jobs : list Job;
  signals : list Signal;
  platforms : list (string * list string);
  sessions : list TuyaOpenMQ;
  api : TuyaOpenAPI;
  mq : nat;
  device_map : gmap string TuyaDevice;
  listener_attached : bool;
  device_ids : gset string
}.

Definition set_data v (w : World) : World :=
  mkWorld v (devices w) (jobs w) (signals w) (platforms w) (sessions w)
          (api w) (mq w) (device_map w) (listener_attached w) (device_ids w).
Definition set_devices v (w : World) : World :=
  mkWorld (data w) v (jobs w) (signals w) (platforms w) (sessions w)
          (api w) (mq w) (device_map w) (listener_attached w) (device_ids w).
Definition set_jobs v (w : World) : World :=
  mkWorld (data w) (devices w) v (signals w) (platforms w) (sessions w)
          (api w) (mq w) (device_map w) (listener_attached w) (device_ids w).
Definition set_signals v (w : World) : World :=
  mkWorld (data w) (devices w) (jobs w) v (platforms w) (sessions w)
          (api w) (mq w) (device_map w) (listener_attached w) (device_ids w).
Definition set_platforms v (w : World) : World :=
  mkWorld (data w) (devices w) (jobs w) (signals w) v (sessions w)
          (api w) (mq w) (device_map w) (listener_attached w) (device_ids w).
Definition set_sessions v (w : World) : World :=
  mkWorld (data w) (devices w) (jobs w) (signals w) (platforms w) v
          (api w) (mq w) (device_map w) (listener_attached w) (device_ids w).
Definition set_api v (w : World) : World :=
  mkWorld (data w) (devices w) (jobs w) (signals w) (platforms w) (sessions w)
          v (mq w) (device_map w) (listener_attached w) (device_ids w).
Definition set_mq v (w : World) : World :=
  mkWorld (data w) (devices w) (jobs w) (signals w) (platforms w) (sessions w)
          (api w) v (device_map w) (listener_attached w) (device_ids w).
Definition set_device_map v (w : World) : World :=
  mkWorld (data w) (devices w) (jobs w) (signals w) (platforms w) (sessions w)
          (api w) (mq w) v (listener_attached w) (device_ids w).
Definition set_listener_attached v (w : World) : World :=
  mkWorld (data w) (devices w) (jobs w) (signals w) (platforms w) (sessions w)
          (api w) (mq w) (device_map w) v (device_ids w).
Definition set_device_ids v (w : World) : World :=
  mkWorld (data w) (devices w) (jobs w) (signals w) (platforms w) (sessions w)
          (api w) (mq w) (device_map w) (listener_attached w) v.

(** A computation that may raise: the outcome and the world it leaves. *)
Definition M (A : Type) : Type := World → Outcome A * World.

Definition ret {A} (a : A) : M A := λ w, (Return a, w).
Definition raise {A} (e : Exn) : M A := λ w, (Raise e, w).
Definition bind {A B} (c : M A) (k : A → M B) : M B :=
  λ w, match c w with
       | (Return a, w') => k a w'
       | (Raise e, w') => (Raise e, w')
       end.
(** Run a total statement for its effect. *)
Definition exec (f : World → World) : M unit := λ w, (Return tt, f w).

Declare Scope py_scope.
Delimit Scope py_scope with py.
Notation "'let!' x ':=' c 'in' k" := (bind c (λ x, k))
  (at level 10, x name, c at level 100, k at level 200) : py_scope.
Notation "'do!' c 'in' k" := (bind c (λ _, k))
  (at level 10, c at level 100, k at level 200) : py_scope.

(** [d[key]] *)
Definition getitem {V} (d : gmap string V) (key : string) : M V :=
  match d !! key with
  | Some v => ret v
  | None => raise (KeyError key)
  end.

(** ** Collaborators: dispatcher, job queue, message queues *)

(** Modelled from the spec: the body of [dispatcher_send] (Home Assistant
    core) is missing.  A signal sent is a notification made; it is recorded
    in the order of sending. *)
Definition dispatcher_send (w : World) (sig : string) (a : list (list string)) : World :=
  set_signals (signals w ++ [mkSignal sig a]) w.

(** Modelled from the spec: the body of [hass.add_job] (Home Assistant
    core) is missing.  The spec has callbacks "enqueue work" for the owner's
    execution context, and removals "deferred": the job is appended to a
    queue that the event loop takes from in order. *)
Definition add_job (w : World) (j : Job) : World :=
  set_jobs (jobs w ++ [j]) w.

Definition mq_set_status (s : MqStatus) (q : TuyaOpenMQ) : TuyaOpenMQ :=
  mkMQ (mq_api q) s (mq_listening q).

(** Modelled from the spec: [TuyaOpenMQ(api)], a fresh session object, not
    yet running; the result is its number. *)
Definition mq_new (w : World) (a : TuyaOpenAPI) : nat * World :=
  (length (sessions w), set_sessions (sessions w ++ [mkMQ a MqCreated false]) w).

(** Modelled from the spec: [tuya_mq.start()] takes a session that was
    never started to [Active]. *)
Definition mq_start (w : World) (i : nat) : World :=
  set_sessions
    (alter (λ q, if decide (mq_status q = MqCreated)
                 then mq_set_status MqActive q else q) i (sessions w)) w.

(** Modelled from the spec: [mq.stop()] leaves the session stopped,
    whatever it was. *)
Definition mq_stop (w : World) (i : nat) : World :=
  set_sessions (alter (mq_set_status MqStopped) i (sessions w)) w.

(** Modelled from the spec: [tuya_mq.add_message_listener(
    device_manager.on_message)] makes the device manager a consumer of the
    session's messages. *)
Definition mq_add_message_listener (w : World) (i : nat) : World :=
  set_sessions
    (alter (λ q, mkMQ (mq_api q) (mq_status q) true) i (sessions w)) w.

(** ** [DeviceListener] *)
Section Listener.
Context `{Const}.

(** [update_device]: the arguments of the debug call are evaluated before
    the signal is sent, so a missing [device_map] key raises first. *)
Definition update_device (device : TuyaDevice) : M unit :=
  λ w,
    if decide (id device ∈ device_ids w) then
      (do! getitem (device_map w) (id device) in
       exec (λ w, dispatcher_send w
                    (TUYA_HA_SIGNAL_UPDATE_ENTITY +:+ "_" +:+ id device) []))%py w
    else ret tt w.

(** [add_device] *)
Definition add_device (w : World) (device : TuyaDevice) : World :=
  let w := add_job w (JobRemoveDevice (id device)) in
  let w := set_device_ids ({[id device]} ∪ device_ids w) w in
  let w := dispatcher_send w TUYA_DISCOVERY_NEW [[id device]] in
  let w := mq_stop w (mq w) in
  let '(tuya_mq, w) := mq_new w (api w) in
  let w := mq_start w tuya_mq in
  let w := set_mq tuya_mq w in
  mq_add_message_listener w tuya_mq.

(** [remove_device] *)
Definition remove_device (w : World) (device_id : string) : World :=
  add_job w (JobRemoveDevice device_id).

(** [async_remove_device] *)
Definition async_remove_device (w : World) (device_id : string) : World :=
  match device_registry.async_get_device (devices w) (DOMAIN, device_id) with
  | Some (entry_id, device_entry) =>
      let w := set_devices
                 (device_registry.async_remove_device (devices w) entry_id) w in
      set_device_ids (device_ids w ∖ {[device_id]}) w
  | None => w
  end.

(** Modelled from the spec: the event loop takes the oldest queued job and
    runs it (the removal's execution point). *)
Definition run_job (w : World) : World :=
  match jobs w with
  | [] => w
  | JobRemoveDevice device_id :: rest =>
      async_remove_device (set_jobs rest w) device_id
  end.

(** Modelled from the spec: the event loop drains the queue. *)
Definition run_jobs (w : World) : World :=
  Nat.iter (length (jobs w)) run_job w.

(** The states [add_device] passes through, one per statement. *)
Inductive Point :=
  | AfterAddJob | AfterIdsAdd | AfterDiscovery
  | AfterStop | AfterNew | AfterStart | AfterAssign | AfterListen.

Definition add_device_trace (w : World) (device : TuyaDevice)
    : list (Point * World) :=
  let w1 := add_job w (JobRemoveDevice (id device)) in
  let w2 := set_device_ids ({[id device]} ∪ device_ids w1) w1 in
  let w3 := dispatcher_send w2 TUYA_DISCOVERY_NEW [[id device]] in
  let w4 := mq_stop w3 (mq w3) in
  let '(tuya_mq, w5) := mq_new w4 (api w4) in
  let w6 := mq_start w5 tuya_mq in
  let w7 := set_mq tuya_mq w6 in
  let w8 := mq_add_message_listener w7 tuya_mq in
  [(AfterAddJob, w1); (AfterIdsAdd, w2); (AfterDiscovery, w3);
   (AfterStop, w4); (AfterNew, w5); (AfterStart, w6);
   (AfterAssign, w7); (AfterListen, w8)].

(** The states passed through while a sequence of add-events is handled. *)
Fixpoint add_devices_trace (w : World) (ds : list TuyaDevice)
    : list (Point * World) :=
  match ds with
  | [] => []
  | d :: ds' => add_device_trace w d ++ add_devices_trace (add_device w d) ds'
  end.

End Listener.

(** ** Config entries and the collaborators of setup *)

Module ConfigEntry.
Record t := mk {
  entry_id : string;
  data : gmap string Value
}.
End ConfigEntry.
Abbreviation ConfigEntry := ConfigEntry.t.

(** What lies outside the integration and is consulted during setup and
    unload: the vendor SDK's enum conversion [AuthType(value)], the answer
    of [api.connect], the device map that
    [home_manager.update_device_cache] leaves in the device manager, and the
    result of [hass.config_entries.async_unload_platforms]. *)
Record Env := mkEnv {
  AuthType_of : Value → option AuthType;
  connect : TuyaOpenAPI → list Value → gmap string Value;
  update_device_cache : gmap string TuyaDevice;
  async_unload_platforms : bool
}.

(** [response.get("success", False) is False] *)
Definition login_failed (response : gmap string Value) : bool :=
  match default (VBool false) (response !! "success") with
  | VBool false => true
  | _ => false
  end.

(** [hass.data] as a computation. *)
Definition hass_data : M (gmap string (gmap string HomeAssistantTuyaData)) :=
  λ w, (Return (data w), w).

(** [hass.data[DOMAIN].pop(entry_id)] followed by
    [if not hass.data[DOMAIN]: hass.data.pop(DOMAIN)]. *)
Definition pop_entry (domain entry_id : string) : M unit :=
  (let! hd := hass_data in
   let! d := getitem hd domain in
   do! getitem d entry_id in
   do! exec (set_data (<[domain := delete entry_id d]> hd)) in
   let! hd := hass_data in
   let! d := getitem hd domain in
   if decide (d = ∅)
   then (do! getitem hd domain in exec (set_data (delete domain hd)))
   else ret tt)%py.

Section Setup.
Context `{Const}.

(** The arguments of [api.connect], read from [entry.data] left to right. *)
Definition connect_args (auth : AuthType) (d : gmap string Value) : M (list Value) :=
  (if decide (auth = CUSTOM) then
     let! username := getitem d CONF_USERNAME in
     let! password := getitem d CONF_PASSWORD in
     ret [username; password]
   else
     let! username := getitem d CONF_USERNAME in
     let! password := getitem d CONF_PASSWORD in
     let! country_code := getitem d CONF_COUNTRY_CODE in
     let! app_type := getitem d CONF_APP_TYPE in
     ret [username; password; country_code; app_type])%py.

(** [for device in device_manager.device_map.values():
       device_ids.add(device.id)] *)
Definition register_device_ids (w : World) : World :=
  foldl (λ w '(_, device), set_device_ids ({[id device]} ∪ device_ids w) w)
        w (map_to_list (device_map w)).

(** [_init_tuya_sdk] *)
Definition _init_tuya_sdk (env : Env) (entry : ConfigEntry) : M bool :=
  (let d := ConfigEntry.data entry in
   let! v := getitem d CONF_AUTH_TYPE in
   let! auth := match AuthType_of env v with
                | Some a => ret a
                | None => raise ValueError
                end in
   let! endpoint := getitem d CONF_ENDPOINT in
   let! access_id := getitem d CONF_ACCESS_ID in
   let! access_secret := getitem d CONF_ACCESS_SECRET in
   let api := mkAPI endpoint access_id access_secret auth "hass" in
   let! a := connect_args auth d in
   let response := connect env api a in
   if login_failed response then ret false
   else
     let! tuya_mq := (λ w, let '(i, w) := mq_new w api in (Return i, w)) in
     do! exec (λ w, mq_start w tuya_mq) in
     (* device_manager = TuyaDeviceManager(api, tuya_mq); the manager
        subscribes its [on_message] to the queue it is given *)
     do! exec (set_api api) in
     do! exec (set_mq tuya_mq) in
     do! exec (set_device_map ∅) in
     do! exec (λ w, mq_add_message_listener w tuya_mq) in
     (* listener = DeviceListener(hass, device_manager, device_ids) *)
     do! exec (set_device_ids ∅) in
     do! exec (set_listener_attached true) in
     let! hd := hass_data in
     let! dom := getitem hd DOMAIN in
     do! exec (set_data
                 (<[DOMAIN := <[ConfigEntry.entry_id entry :=
                                  mkData tuya_mq tuya_mq tuya_mq]> dom]> hd)) in
     do! exec (set_device_map (update_device_cache env)) in
     do! exec (λ w, set_devices
                      (cleanup_device_registry (device_map w) (devices w)) w) in
     do! exec register_device_ids in
     do! exec (λ w, set_platforms
                      (platforms w ++ [(ConfigEntry.entry_id entry, PLATFORMS)]) w) in
     ret true)%py.

(** The migration at the head of [async_setup_entry]: project type has
    been renamed to auth type. *)
Definition migrate_project_type (entry : ConfigEntry) : ConfigEntry :=
  match ConfigEntry.data entry !! CONF_PROJECT_TYPE with
  | Some v =>
      let data := <[CONF_AUTH_TYPE := v]> (ConfigEntry.data entry) in
      let data := delete CONF_PROJECT_TYPE data in
      ConfigEntry.mk (ConfigEntry.entry_id entry) data
  | None => entry
  end.

(** [hass.data.setdefault(DOMAIN, {})] *)
Definition setdefault_domain (w : World) : World :=
  match data w !! DOMAIN with
  | Some _ => w
  | None => set_data (<[DOMAIN := ∅]> (data w)) w
  end.

(** What is left of [async_setup_entry] once the entry is migrated. *)
Definition setup_after_migration (env : Env) (entry : ConfigEntry) : M bool :=
  (let! success := _init_tuya_sdk env entry in
   do! (if success then ret tt
        else pop_entry DOMAIN (ConfigEntry.entry_id entry)) in
   ret success)%py.

(** [async_setup_entry]: the outcome, the world, and the entry as
    [async_update_entry] left it. *)
Definition async_setup_entry (env : Env) (hass : World) (entry : ConfigEntry)
    : Outcome bool * World * ConfigEntry :=
  let hass := setdefault_domain hass in
  let entry := migrate_project_type entry in
  (setup_after_migration env entry hass, entry).

(** [async_unload_entry] *)
Definition async_unload_entry (env : Env) (entry : ConfigEntry) : M bool :=
  (let unload := async_unload_platforms env in
   do! (if unload then
          let! hd := hass_data in
          let! dom := getitem hd DOMAIN in
          do! getitem dom (ConfigEntry.entry_id entry) in
          do! exec (λ w, mq_stop w (mq w)) in
          do! exec (set_listener_attached false) in
          pop_entry DOMAIN (ConfigEntry.entry_id entry)
        else ret tt) in
   ret unload)%py.

(** The world a successful [_init_tuya_sdk] leaves, statement by statement. *)
Definition init_world (env : Env) (entry : ConfigEntry) (a : TuyaOpenAPI)
    (dom : gmap string HomeAssistantTuyaData) (w : World) : World :=
  let n := length (sessions w) in
  let w := (mq_new w a).2 in
  let w := mq_start w n in
  let w := set_device_map ∅ (set_mq n (set_api a w)) in
  let w := mq_add_message_listener w n in
  let w := set_listener_attached true (set_device_ids ∅ w) in
  let w := set_data (<[DOMAIN := <[ConfigEntry.entry_id entry := mkData n n n]> dom]>
                       (data w)) w in
  let w := set_device_map (update_device_cache env) w in
  let w := set_devices (cleanup_device_registry (device_map w) (devices w)) w in
  let w := register_device_ids w in
  set_platforms (platforms w ++ [(ConfigEntry.entry_id entry, PLATFORMS)]) w.

End Setup.

(** ** Sessions: which message queues are running *)

(** No session other than number [n] is running. *)
Definition active_only_at (n : nat) (l : list TuyaOpenMQ) : Prop :=
  ∀ i q, l !! i = Some q → mq_status q = MqActive → i = n.

(** No session is running. *)
Definition no_active (l : list TuyaOpenMQ) : Prop :=
  ∀ i q, l !! i = Some q → mq_status q ≠ MqActive.

(** Two sessions are never running together. *)
Definition at_most_one_active (l : list TuyaOpenMQ) : Prop :=
  ∀ i j qi qj, l !! i = Some qi → l !! j = Some qj →
    mq_status qi = MqActive → mq_status qj = MqActive → i = j.

(** The only session that may be running is the device manager's. *)
Definition only_current_active (w : World) : Prop :=
  active_only_at (mq w) (sessions w).

(** The device manager's session is running. *)
Definition current_active (w : World) : Prop :=
  ∃ q, sessions w !! mq w = Some q ∧ mq_status q = MqActive.

(** What the specification asks of each state [add_device] passes through. *)
Definition point_ok (pw : Point * World) : Prop :=
  at_most_one_active (sessions pw.2)
  ∧ (pw.1 = AfterStop ∨ pw.1 = AfterNew → no_active (sessions pw.2))
  ∧ (pw.1 = AfterListen → current_active pw.2 ∧ only_current_active pw.2).

(** ** Worlds and entries for the closed examples *)

Definition example_api : TuyaOpenAPI :=
  mkAPI (VStr "https://openapi.tuyaeu.com") (VStr "id") (VStr "secret")
        SMART_HOME "hass".

(** A world after a successful setup: one running session, nothing queued,
    nothing sent yet. *)
Definition example_world (devices : gmap string DeviceEntry)
    (device_map : gmap string TuyaDevice) (device_ids : gset string) : World :=
  mkWorld ∅ devices [] [] [] [mkMQ example_api MqActive true]
          example_api 0 device_map true device_ids.

Definition device_X : TuyaDevice := mkDevice "X" "on".
Definition device_Y : TuyaDevice := mkDevice "Y" "off".

(** X is tracked, in the directory, and has a registry entry. *)
Definition world_X_registered : World :=
  example_world {["reg-x" := mkEntry [("tuya", "X")]]}
                {["X" := device_X]} {["X"]}.

(** X is tracked and in the directory, but no registry entry names it. *)
Definition world_X_unregistered : World :=
  example_world ∅ {["X" := device_X]} {["X"]}.

(** X is tracked, but the directory has dropped it. *)
Definition world_X_not_in_map : World :=
  example_world ∅ ∅ {["X"]}.

(** A process in which nothing has been set up. *)
Definition world_fresh : World :=
  mkWorld ∅ ∅ [] [] [] [] example_api 0 ∅ false ∅.

(** A login that the cloud refuses. *)
Definition env_login_refused : Env :=
  mkEnv (λ v, match v with
              | VInt 0 => Some SMART_HOME
              | VInt 1 => Some CUSTOM
              | _ => None
              end)
        (λ _ _, {["success" := VBool false]})
        ∅ true.

Definition entry_current : ConfigEntry :=
  ConfigEntry.mk "entry1"
    (list_to_map [("auth_type", VInt 0); ("endpoint", VStr "e");
                  ("access_id", VStr "i"); ("access_secret", VStr "s");
                  ("username", VStr "u"); ("password", VStr "p");
                  ("country_code", VStr "1"); ("tuya_app_type", VStr "a")]).

Definition entry_legacy : ConfigEntry :=
  ConfigEntry.mk "entry1"
    (list_to_map [("tuya_project_type", VInt 0); ("endpoint", VStr "e");
                  ("access_id", VStr "i"); ("access_secret", VStr "s");
                  ("username", VStr "u"); ("password", VStr "p");
                  ("country_code", VStr "1"); ("tuya_app_type", VStr "a")]).

(** A login that the cloud accepts, with a directory of two devices. *)
Definition env_login_ok : Env :=
  mkEnv (AuthType_of env_login_refused)
        (λ _ _, {["success" := VBool true]})
        (<["X" := device_X]> {["Y" := device_Y]}) true.

(** A login whose response carries [None] under ["success"]. *)
Definition env_login_none : Env :=
  mkEnv (AuthType_of env_login_refused)
        (λ _ _, {["success" := VNone]})
        ∅ true.

(** A custom-auth entry: no country code, no app type. *)
Definition entry_custom : ConfigEntry :=
  ConfigEntry.mk "entry2"
    (list_to_map [("auth_type", VInt 1); ("endpoint", VStr "e");
                  ("access_id", VStr "i"); ("access_secret", VStr "s");
                  ("username", VStr "u"); ("password", VStr "p")]).


(** A process whose [hass.data] still has the entry id from an earlier
    load, and a registry with a stale entry of this integration and an
    entry of another one. *)
Definition world_leftover : World :=
  mkWorld {["tuya" := {["entry1" := mkData 0 0 0]}]}
          (<["reg-z" := mkEntry [("tuya", "Z")]]>
             {["reg-hue" := mkEntry [("hue", "Z")]]})
          [] [] [] [] example_api 0 ∅ false ∅.

(** The world after [entry_current] has been set up in a fresh process. *)
Definition world_set_up : World :=
  (@async_setup_entry ExampleConst env_login_ok world_fresh entry_current).1.2.

(** * Properties *)

(** ** Facts about the pruning loops *)
Section CleanupFacts.
Context `{Const}.
Implicit Types (device_map : gmap string TuyaDevice)
               (devices : gmap string DeviceEntry).

Lemma stale_item_true device_map item :
  stale_item device_map item = true ↔
  item.1 = DOMAIN ∧ device_map !! item.2 = None.
Proof.
  unfold stale_item. rewrite andb_true_iff, !bool_decide_eq_true.
  split; intros [Hd Hx]; split; congruence.
Qed.

Lemma existsb_stale device_map e :
  existsb (stale_item device_map) (identifiers e) = true ↔ stale device_map e.
Proof.
  unfold stale. rewrite existsb_exists. split.
  - intros [[d x] [Hin Hst]]. apply stale_item_true in Hst as [Hd Hx].
    simpl in *. subst d. exists x. split; [by apply list_elem_of_In | done].
  - intros (x & Hin & Hx). exists (DOMAIN, x). split.
    + by apply list_elem_of_In.
    + by apply stale_item_true.
Qed.

#[global] Instance stale_dec device_map e : Decision (stale device_map e).
Proof.
  refine (cast_if (decide (existsb (stale_item device_map) (identifiers e) = true)));
    by rewrite <- existsb_stale.
Defined.

(** The inner loop with its [break] is a plain existence test. *)
Lemma cleanup_entry_spec device_map devices dev_id items :
  cleanup_entry device_map devices dev_id items =
  if existsb (stale_item device_map) items then delete dev_id devices else devices.
Proof.
  induction items as [|item rest IH]; simpl; [done |].
  destruct (stale_item device_map item); simpl; [done | apply IH].
Qed.

(** The set's iteration order does not matter. *)
Lemma cleanup_entry_perm device_map devices dev_id items items' :
  items ≡ₚ items' →
  cleanup_entry device_map devices dev_id items =
  cleanup_entry device_map devices dev_id items'.
Proof.
  intros Hp. rewrite !cleanup_entry_spec.
  assert (existsb (stale_item device_map) items
          = existsb (stale_item device_map) items') as ->; [|done].
  apply eq_true_iff_eq. rewrite !existsb_exists.
  split; intros (x & Hin & Hx); exists x; split; try done;
    apply list_elem_of_In; apply list_elem_of_In in Hin;
    [by rewrite <- Hp | by rewrite Hp].
Qed.

(** Folding the outer loop over any snapshot [l] drops from [devices]
    exactly the keys that [l] pairs with a stale entry. *)
Lemma cleanup_fold device_map (l : list (string * DeviceEntry)) devices k e :
  foldl (λ devs '(dev_id, device_entry),
           cleanup_entry device_map devs dev_id (identifiers device_entry))
        devices l !! k = Some e ↔
  devices !! k = Some e ∧ ¬ ∃ e', (k, e') ∈ l ∧ stale device_map e'.
Proof.
  revert devices. induction l as [|[k0 e0] l IH]; intros devices; simpl.
  - split; [intros ?; split; [done | intros (? & Hin & _); by apply elem_of_nil in Hin] | tauto].
  - rewrite IH, cleanup_entry_spec. split.
    + intros [Hk Hno]. destruct (existsb _ _) eqn:Hst.
      * apply lookup_delete_Some in Hk as [Hne Hk]. split; [done |].
        intros (e' & Hin & He'). apply elem_of_cons in Hin as [Heq | Hin].
        -- congruence.
        -- apply Hno. eauto.
      * split; [done |]. intros (e' & Hin & He').
        apply elem_of_cons in Hin as [Heq | Hin].
        -- inversion Heq; subst. apply existsb_stale in He'. congruence.
        -- apply Hno. eauto.
    + intros [Hk Hno]. split.
      * destruct (existsb _ _) eqn:Hst; [| done].
        apply lookup_delete_Some. split; [| done].
        intros ->. apply Hno. exists e0. split; [left |].
        by apply existsb_stale.
      * intros (e' & Hin & He'). apply Hno. exists e'. split; [by right | done].
Qed.

Lemma cleanup_lookup device_map devices k e :
  cleanup_device_registry device_map devices !! k = Some e ↔
  devices !! k = Some e ∧ ¬ stale device_map e.
Proof.
  unfold cleanup_device_registry. rewrite cleanup_fold. split.
  - intros [Hk Hno]. split; [done |]. intros Hst. apply Hno.
    exists e. split; [by apply elem_of_map_to_list | done].
  - intros [Hk Hno]. split; [done |]. intros (e' & Hin & He').
    apply elem_of_map_to_list in Hin. congruence.
Qed.

Lemma cleanup_is_filter device_map devices :
  cleanup_device_registry device_map devices =
  filter (λ kv, ¬ stale device_map kv.2) devices.
Proof.
  apply map_eq. intros k. apply option_eq. intros e.
  rewrite cleanup_lookup, map_lookup_filter_Some. done.
Qed.

Lemma foreign_not_stale device_map e : foreign e → ¬ stale device_map e.
Proof. intros Hf (x & Hin & _). by apply (Hf _ Hin). Qed.

End CleanupFacts.


(** ** Pruning the registry *)
Section CleanupClaims.
Context `{Const}.

Lemma stale_singleton device_map x :
  stale device_map (mkEntry [(DOMAIN, x)]) ↔ device_map !! x = None.
Proof.
  unfold stale; simpl. split.
  - intros (y & Hin & Hy). apply list_elem_of_singleton in Hin. congruence.
  - intros Hx. exists x. split; [apply list_elem_of_singleton |]; done.
Qed.

(** C4: pruning keeps an entry exactly when it was there and is not stale,
    that is, it deletes exactly the entries that carry this integration's
    tag with an identity the directory's device_map lacks; an entry none
    of whose identifiers carries the tag is never deleted, whatever the
    directory holds; and with directory {A, B} and registry entries for
    {A, B, C} the registry afterwards holds exactly those for {A, B}. *)
Theorem cleanup_device_registry_exact :
  (∀ (device_map : gmap string TuyaDevice) (devices : gmap string DeviceEntry) k e,
      cleanup_device_registry device_map devices !! k = Some e ↔
      devices !! k = Some e ∧ ¬ stale device_map e)
  ∧ (∀ (device_map : gmap string TuyaDevice) (devices : gmap string DeviceEntry) k e,
      devices !! k = Some e → foreign e →
      cleanup_device_registry device_map devices !! k = Some e)
  ∧ cleanup_device_registry scenario_directory scenario_registry = scenario_pruned.
Proof.
  split; [| split].
  - intros. apply cleanup_lookup.
  - intros device_map devices k e Hk Hf. apply cleanup_lookup.
    split; [done | by apply foreign_not_stale].
  - rewrite cleanup_is_filter. unfold scenario_registry, scenario_pruned.
    rewrite map_filter_insert_True by (simpl; rewrite stale_singleton; done).
    rewrite map_filter_insert_True by (simpl; rewrite stale_singleton; done).
    rewrite map_filter_insert_False by
      (simpl; intros Hn; apply Hn; apply stale_singleton; done).
    rewrite delete_empty, map_filter_empty. done.
Qed.

(** C7: pruning is idempotent: with the directory unchanged a second run
    finds nothing to remove and leaves the registry as the first run left
    it. *)
Theorem cleanup_device_registry_idempotent
    (device_map : gmap string TuyaDevice) (devices : gmap string DeviceEntry) :
  cleanup_device_registry device_map (cleanup_device_registry device_map devices)
  = cleanup_device_registry device_map devices.
Proof.
  apply map_eq. intros k. apply option_eq. intros e.
  rewrite !cleanup_lookup. tauto.
Qed.

End CleanupClaims.

(** ** Facts about the registry lookup *)
Section RegistryFacts.
Import device_registry.

Lemma async_get_device_Some (devices : gmap string DeviceEntry) idf k e :
  async_get_device devices idf = Some (k, e) →
  devices !! k = Some e ∧ idf ∈ identifiers e.
Proof.
  unfold async_get_device. intros Hf.
  apply fmap_Some in Hf as ([i [k' e']] & Hfind & Heq). simpl in Heq.
  inversion Heq; subst k' e'.
  apply list_find_Some in Hfind as (Hl & Hid & _).
  split; [| exact Hid].
  apply elem_of_map_to_list. apply list_elem_of_lookup. by exists i.
Qed.

Lemma async_get_device_None (devices : gmap string DeviceEntry) idf :
  async_get_device devices idf = None ↔
  ∀ k e, devices !! k = Some e → idf ∉ identifiers e.
Proof.
  unfold async_get_device. rewrite fmap_None, list_find_None, Forall_forall.
  split.
  - intros Hall k e Hk. apply (Hall (k, e)). by apply elem_of_map_to_list.
  - intros Hall [k e] Hin. apply elem_of_map_to_list in Hin.
    by apply (Hall k e).
Qed.

Lemma async_get_device_is_Some (devices : gmap string DeviceEntry) idf :
  (∃ k e, devices !! k = Some e ∧ idf ∈ identifiers e) →
  ∃ k e, async_get_device devices idf = Some (k, e).
Proof.
  intros (k & e & Hk & Hin).
  destruct (async_get_device devices idf) as [[k' e']|] eqn:Hget; [eauto |].
  exfalso. by eapply async_get_device_None.
Qed.

End RegistryFacts.

(** ** The listener *)
Section ListenerClaims.
Context `{Const}.

(** What [add_device] leaves in the fields the removal looks at. *)
Lemma add_device_devices w device : devices (add_device w device) = devices w.
Proof. reflexivity. Qed.

Lemma add_device_jobs w device :
  jobs (add_device w device) = jobs w ++ [JobRemoveDevice (id device)].
Proof. reflexivity. Qed.

Lemma add_device_device_ids w device :
  device_ids (add_device w device) = {[id device]} ∪ device_ids w.
Proof. reflexivity. Qed.

Lemma add_device_signals w device :
  signals (add_device w device)
  = signals w ++ [mkSignal TUYA_DISCOVERY_NEW [[id device]]].
Proof. reflexivity. Qed.

(** The removal when the registry has nothing under the identity. *)
Lemma async_remove_device_absent w device_id :
  (∀ k e, devices w !! k = Some e → (DOMAIN, device_id) ∉ identifiers e) →
  async_remove_device w device_id = w.
Proof.
  intros Hno. unfold async_remove_device.
  apply async_get_device_None in Hno. by rewrite Hno.
Qed.

(** The removal when the registry has an entry under the identity. *)
Lemma async_remove_device_present w device_id :
  (∃ k e, devices w !! k = Some e ∧ (DOMAIN, device_id) ∈ identifiers e) →
  ∃ k e, devices w !! k = Some e ∧ (DOMAIN, device_id) ∈ identifiers e ∧
         async_remove_device w device_id
         = set_device_ids (device_ids w ∖ {[device_id]})
             (set_devices (delete k (devices w)) w).
Proof.
  intros Hex. apply async_get_device_is_Some in Hex as (k & e & Hget).
  pose proof (async_get_device_Some _ _ _ _ Hget) as [Hk Hin].
  exists k, e. split; [done |]. split; [done |].
  unfold async_remove_device. by rewrite Hget.
Qed.

(** C9: [update_device] never changes [device_ids]: whatever the device,
    member or not, and whether the call returns or raises, the identity
    set afterwards is the one before. *)
Theorem update_device_keeps_device_ids (device : TuyaDevice) (w : World) :
  device_ids (update_device device w).2 = device_ids w.
Proof.
  unfold update_device. case_decide as Hin; [| done].
  unfold bind, getitem. destruct (device_map w !! id device); done.
Qed.

(** C5, as amended: a status update whose identity is not in [device_ids]
    is dropped: the call returns normally and the world is unchanged, so
    the identity is not added, no signal is sent and the session is not
    restarted.  The add-flow is [add_device], a separate callback. *)
Theorem update_device_unknown_is_dropped (device : TuyaDevice) (w : World) :
  id device ∉ device_ids w →
  update_device device w = (Return tt, w).
Proof. intros Hnot. unfold update_device. by rewrite decide_False. Qed.

(** C6, as amended: a status update whose identity is in [device_ids] and
    is a key of the manager's [device_map] returns normally and sends
    exactly one signal, the per-device update signal, and changes nothing
    else. *)
Theorem update_device_sends_once (device : TuyaDevice) (w : World) :
  id device ∈ device_ids w →
  is_Some (device_map w !! id device) →
  update_device device w
  = (Return tt,
     set_signals
       (signals w ++ [mkSignal (TUYA_HA_SIGNAL_UPDATE_ENTITY +:+ "_" +:+ id device) []])
       w).
Proof.
  intros Hin [d Hd]. unfold update_device. rewrite decide_True by done.
  unfold bind, getitem. by rewrite Hd.
Qed.

(** C8, as amended: when the registry holds an entry identified by
    [(DOMAIN, X)], the removal deletes such an entry and X is no longer in
    [device_ids]; when it holds none, the removal changes nothing, so an X
    that was in [device_ids] stays there. *)
Theorem async_remove_device_effect (w : World) (X : string) :
  ((∃ k e, devices w !! k = Some e ∧ (DOMAIN, X) ∈ identifiers e) →
     (X ∉ device_ids (async_remove_device w X)) ∧
     (∃ k e, devices w !! k = Some e ∧ (DOMAIN, X) ∈ identifiers e ∧
             devices (async_remove_device w X) = delete k (devices w)))
  ∧ ((∀ k e, devices w !! k = Some e → (DOMAIN, X) ∉ identifiers e) →
     async_remove_device w X = w).
Proof.
  split.
  - intros Hex. apply async_remove_device_present in Hex as (k & e & Hk & Hin & ->).
    split; [| by exists k, e]. simpl.
    apply not_elem_of_difference. right. by apply elem_of_singleton.
  - apply async_remove_device_absent.
Qed.

End ListenerClaims.

Section SessionFacts.
Implicit Types (l : list TuyaOpenMQ) (q : TuyaOpenMQ).

Lemma active_only_at_most_one n l : active_only_at n l → at_most_one_active l.
Proof.
  intros Hn i j qi qj Hi Hj Hai Haj.
  rewrite (Hn i qi Hi Hai), (Hn j qj Hj Haj). done.
Qed.

Lemma no_active_only_at n l : no_active l → active_only_at n l.
Proof. intros Hno i q Hi Ha. by destruct (Hno i q Hi). Qed.

(** Stopping the one session that may run leaves none running. *)
Lemma stop_no_active n l :
  active_only_at n l → no_active (alter (mq_set_status MqStopped) n l).
Proof.
  intros Hn i q Hi Ha. rewrite list_lookup_alter in Hi.
  case_decide as Heq.
  - subst i. apply fmap_Some in Hi as (q0 & _ & ->). simpl in Ha. discriminate.
  - apply Heq. symmetry. by eapply Hn.
Qed.

(** A newly constructed queue is not running. *)
Lemma new_no_active l a : no_active l → no_active (l ++ [mkMQ a MqCreated false]).
Proof.
  intros Hno i q Hi. apply lookup_snoc_Some in Hi as [[_ Hi] | [_ <-]].
  - by eapply Hno.
  - simpl. discriminate.
Qed.

(** Starting a queue can only set that queue running. *)
Lemma start_active_only_at n l :
  no_active l →
  active_only_at n
    (alter (λ q, if decide (mq_status q = MqCreated)
                 then mq_set_status MqActive q else q) n l).
Proof.
  intros Hno i q Hi Ha. rewrite list_lookup_alter in Hi.
  case_decide as Heq; [done |]. by destruct (Hno i q Hi).
Qed.

Lemma start_new_active l a :
  alter (λ q, if decide (mq_status q = MqCreated)
              then mq_set_status MqActive q else q)
        (length l) (l ++ [mkMQ a MqCreated false]) !! length l
  = Some (mkMQ a MqActive false).
Proof.
  rewrite list_lookup_alter_eq, lookup_app_r by lia.
  by rewrite Nat.sub_diag.
Qed.

(** Registering a listener does not change which queues run. *)
Lemma listen_active_only_at n m l :
  active_only_at n l →
  active_only_at n (alter (λ q, mkMQ (mq_api q) (mq_status q) true) m l).
Proof.
  intros Hn i q Hi Ha. rewrite list_lookup_alter in Hi.
  case_decide as Heq; [| by eapply Hn].
  subst i. apply fmap_Some in Hi as (q0 & Hq0 & ->). simpl in Ha.
  by eapply Hn.
Qed.

End SessionFacts.

Section RestartClaims.
Context `{Const}.

Lemma add_device_trace_last w device :
  last (add_device_trace w device) = Some (AfterListen, add_device w device).
Proof. reflexivity. Qed.

(** One add-event: every state on the way is fine, and the invariant holds
    again at the end. *)
Lemma add_device_trace_ok w device :
  only_current_active w →
  Forall point_ok (add_device_trace w device)
  ∧ only_current_active (add_device w device).
Proof.
  intros Hw.
  assert (no_active (alter (mq_set_status MqStopped) (mq w) (sessions w)))
    as Hstop by by apply stop_no_active.
  pose proof (new_no_active _ (api w) Hstop) as Hnew.
  pose proof (start_active_only_at
                (length (alter (mq_set_status MqStopped) (mq w) (sessions w)))
                _ Hnew) as Hstart.
  pose proof (listen_active_only_at _
                (length (alter (mq_set_status MqStopped) (mq w) (sessions w)))
                _ Hstart) as Hlisten.
  split; [| exact Hlisten].
  unfold add_device_trace, point_ok. simpl.
  repeat apply Forall_cons_2; try apply Forall_nil_2; simpl;
    (split; [| split; [intros [?|?]; try discriminate | intros ?; try discriminate]]).
  - by eapply active_only_at_most_one.
  - by eapply active_only_at_most_one.
  - by eapply active_only_at_most_one.
  - eapply active_only_at_most_one. by apply (no_active_only_at 0).
  - exact Hstop.
  - eapply active_only_at_most_one. by apply (no_active_only_at 0).
  - exact Hnew.
  - by eapply active_only_at_most_one.
  - by eapply active_only_at_most_one.
  - by eapply active_only_at_most_one.
  - split; [| exact Hlisten].
    unfold current_active; simpl.
    eexists. split.
    + rewrite list_lookup_alter_eq, start_new_active. simpl. reflexivity.
    + reflexivity.
Qed.

(** C2: while any sequence of add-events is handled, starting from a state
    in which only the device manager's session may be running, two sessions
    are never running together at any statement boundary; after the stop and
    after the construction of the new session none is running, so the old
    session is stopped before the new one is created and started; and when
    the add-event is done the device manager's session is the new one, and
    it is running. *)
Theorem add_device_single_session (w : World) (ds : list TuyaDevice) :
  only_current_active w →
  Forall point_ok (add_devices_trace w ds).
Proof.
  revert w. induction ds as [|d ds IH]; intros w Hw; cbn [add_devices_trace].
  - apply Forall_nil_2.
  - destruct (add_device_trace_ok w d Hw) as [Htrace Hnext].
    apply Forall_app. split; [exact Htrace | by apply IH].
Qed.

End RestartClaims.

(** ** A removal announced just before an add *)
Section RaceClaims.
Context `{Const}.

(** The removal never puts an identity into [device_ids]. *)
Lemma async_remove_device_not_in w X :
  X ∉ device_ids w → X ∉ device_ids (async_remove_device w X).
Proof.
  intros Hnot. unfold async_remove_device.
  destruct (device_registry.async_get_device _ _) as [[k e]|]; [| done].
  simpl. apply not_elem_of_difference. by left.
Qed.

(** The state right after [remove_device(X)] and [add_device] for X, when
    nothing else was queued: X is in [device_ids], and two removals of X
    are queued, none cancelled. *)
Lemma add_after_remove_state (w : World) (device : TuyaDevice) :
  jobs w = [] →
  let X := id device in
  let w1 := add_device (remove_device w X) device in
  X ∈ device_ids w1
  ∧ jobs w1 = [JobRemoveDevice X; JobRemoveDevice X]
  ∧ devices w1 = devices w
  ∧ run_job w1 = async_remove_device (set_jobs [JobRemoveDevice X] w1) X
  ∧ run_jobs w1 = run_job (run_job w1).
Proof.
  intros Hj X w1.
  assert (jobs w1 = [JobRemoveDevice X; JobRemoveDevice X]) as Hjobs.
  { subst w1. rewrite add_device_jobs. unfold remove_device, add_job. simpl.
    by rewrite Hj. }
  split; [| split; [done | split; [done | split]]].
  - subst w1. rewrite add_device_device_ids.
    apply elem_of_union. left. by apply elem_of_singleton.
  - unfold run_job. by rewrite Hjobs.
  - unfold run_jobs. by rewrite Hjobs.
Qed.

(** C1, as amended: after [remove_device(X)] and then [add_device] for X,
    with nothing else queued and no registry entry identified by
    [(DOMAIN, X)], X is in [device_ids] after the removal has executed and
    the registry is untouched; the same holds once the whole queue, which
    holds a second removal of X queued by [add_device] itself, is drained. *)
Theorem add_after_remove_race (w : World) (device : TuyaDevice) :
  jobs w = [] →
  (∀ k e, devices w !! k = Some e → (DOMAIN, id device) ∉ identifiers e) →
  let X := id device in
  let w1 := add_device (remove_device w X) device in
  jobs w1 = [JobRemoveDevice X; JobRemoveDevice X]
  ∧ X ∈ device_ids (run_job w1) ∧ devices (run_job w1) = devices w
  ∧ X ∈ device_ids (run_jobs w1) ∧ devices (run_jobs w1) = devices w.
Proof.
  intros Hj Hno X w1.
  destruct (add_after_remove_state w device Hj) as (Hin & Hjobs & _ & Hrun1 & Hrun2).
  fold X in Hin, Hjobs, Hrun1, Hrun2. fold w1 in Hin, Hjobs, Hrun1, Hrun2.
  assert (run_job w1 = set_jobs [JobRemoveDevice X] w1) as Hr1.
  { rewrite Hrun1. by apply async_remove_device_absent. }
  assert (run_jobs w1 = set_jobs [] w1) as Hr2.
  { rewrite Hrun2, Hr1. unfold run_job. simpl.
    by apply async_remove_device_absent. }
  rewrite Hr1, Hr2. done.
Qed.

(** The other case: when the registry holds an entry identified by
    [(DOMAIN, X)], the queued removal deletes one and discards X, although
    the add came first. *)
Lemma add_after_remove_registered (w : World) (device : TuyaDevice) :
  jobs w = [] →
  (∃ k e, devices w !! k = Some e ∧ (DOMAIN, id device) ∈ identifiers e) →
  let X := id device in
  let w1 := add_device (remove_device w X) device in
  (X ∉ device_ids (run_job w1))
  ∧ (∃ k e, devices w !! k = Some e ∧ (DOMAIN, X) ∈ identifiers e ∧
            devices (run_job w1) = delete k (devices w))
  ∧ (X ∉ device_ids (run_jobs w1)).
Proof.
  intros Hj Hex X w1.
  destruct (add_after_remove_state w device Hj) as (Hin & Hjobs & _ & Hrun1 & Hrun2).
  fold X in Hin, Hjobs, Hrun1, Hrun2. fold w1 in Hin, Hjobs, Hrun1, Hrun2.
  destruct (async_remove_device_present (set_jobs [JobRemoveDevice X] w1) X Hex)
    as (k & e & Hk & Hid & Heq).
  assert (X ∉ device_ids (run_job w1)) as Hout.
  { rewrite Hrun1, Heq. simpl.
    apply not_elem_of_difference. right. by apply elem_of_singleton. }
  split; [done |]. split.
  - exists k, e. split; [done |]. split; [done |]. by rewrite Hrun1, Heq.
  - rewrite Hrun2. unfold run_job at 1.
    assert (jobs (run_job w1) = [JobRemoveDevice X]) as ->
      by by rewrite Hrun1, Heq.
    by apply async_remove_device_not_in.
Qed.

End RaceClaims.

(** ** Setting up an entry *)
Section SetupClaims.
Context `{Const}.

Lemma migrate_entry_id entry :
  ConfigEntry.entry_id (migrate_project_type entry) = ConfigEntry.entry_id entry.
Proof.
  unfold migrate_project_type.
  by destruct (ConfigEntry.data entry !! CONF_PROJECT_TYPE).
Qed.

Lemma connect_args_world auth d w o w' :
  connect_args auth d w = (o, w') → w' = w.
Proof.
  unfold connect_args, bind, getitem, ret, raise.
  intros Heq. repeat case_match; by simplify_eq.
Qed.

(** When [_init_tuya_sdk] returns [False] it has changed nothing: the API
    object it built was local, and nothing was stored in [hass.data]. *)
Lemma init_false_world env entry w w' :
  _init_tuya_sdk env entry w = (Return false, w') → w' = w.
Proof.
  unfold _init_tuya_sdk, bind, getitem, ret, raise, exec, hass_data.
  intros Heq.
  repeat match type of Heq with
         | context [connect_args ?a ?d ?w0] =>
             let Hc := fresh "Hc" in
             destruct (connect_args a d w0) as [[?|?] ?] eqn:Hc;
             apply connect_args_world in Hc; subst
         | context [match ?x with _ => _ end] => destruct x eqn:?
         end;
    repeat match goal with
           | Hx : context [match ?x with _ => _ end] |- _ => destruct x eqn:?
           end;
    by simplify_eq.
Qed.

Lemma register_device_ids_frame w :
  sessions (register_device_ids w) = sessions w
  ∧ mq (register_device_ids w) = mq w.
Proof.
  unfold register_device_ids.
  generalize (map_to_list (device_map w)). intros l. revert w.
  induction l as [|[k d] l IH]; intros w; simpl; [done |].
  destruct (IH (set_device_ids ({[id d]} ∪ device_ids w) w)) as [-> ->]. done.
Qed.

(** A successful [_init_tuya_sdk] in a process where no session is running
    leaves exactly the state [add_device] expects: the device manager's
    session is running and no other is. *)
Lemma init_true_single_session env entry w w' :
  no_active (sessions w) →
  _init_tuya_sdk env entry w = (Return true, w') →
  current_active w' ∧ only_current_active w'.
Proof.
  intros Hno. unfold _init_tuya_sdk, bind, getitem, ret, raise, exec, hass_data.
  intros Heq.
  repeat match type of Heq with
         | context [connect_args ?a ?d ?w0] =>
             let Hc := fresh "Hc" in
             destruct (connect_args a d w0) as [[?|?] ?] eqn:Hc;
             apply connect_args_world in Hc; subst
         | context [match ?x with _ => _ end] => destruct x eqn:?
         end;
    repeat match goal with
           | Hx : context [match ?x with _ => _ end] |- _ => destruct x eqn:?
           end;
    simplify_eq.
  match goal with Hn : mq_new _ _ = _ |- _ => unfold mq_new in Hn; simplify_eq end.
  unfold current_active, only_current_active. simpl.
  rewrite (proj1 (register_device_ids_frame _)),
          (proj2 (register_device_ids_frame _)). simpl.
  split.
  - eexists. split.
    + rewrite list_lookup_alter_eq, start_new_active. simpl. reflexivity.
    + reflexivity.
  - apply listen_active_only_at, start_active_only_at. by apply new_no_active.
Qed.

(** When the entry has what [_init_tuya_sdk] reads and the login response
    reports failure, [_init_tuya_sdk] returns [False]. *)
Lemma init_login_failed env entry w v auth e i s a :
  ConfigEntry.data entry !! CONF_AUTH_TYPE = Some v →
  AuthType_of env v = Some auth →
  ConfigEntry.data entry !! CONF_ENDPOINT = Some e →
  ConfigEntry.data entry !! CONF_ACCESS_ID = Some i →
  ConfigEntry.data entry !! CONF_ACCESS_SECRET = Some s →
  connect_args auth (ConfigEntry.data entry) w = (Return a, w) →
  login_failed (connect env (mkAPI e i s auth "hass") a) = true →
  _init_tuya_sdk env entry w = (Return false, w).
Proof.
  intros Hv Hauth He Hi Hs Ha Hfail.
  unfold _init_tuya_sdk, bind, getitem, ret.
  rewrite Hv, Hauth, He, Hi, Hs, Ha, Hfail. done.
Qed.

Lemma setdefault_domain_lookup w :
  data (setdefault_domain w) !! DOMAIN
  = Some (default ∅ (data w !! DOMAIN)).
Proof.
  unfold setdefault_domain. destruct (data w !! DOMAIN) eqn:Hd; simpl.
  - done.
  - by rewrite lookup_insert_eq.
Qed.

(** C3: what the code does on the failure path.  When [_init_tuya_sdk]
    returns [False] and the entry id is not already a key of
    [hass.data[DOMAIN]], [async_setup_entry] does not return [False]: the
    [pop] raises [KeyError] for the entry id, and [hass.data] is left as
    [setdefault] made it, so a [DOMAIN] key that was absent before is now
    present with an empty dict. *)
Theorem async_setup_entry_login_failure
    (env : Env) (hass : World) (entry : ConfigEntry) (w' : World) :
  _init_tuya_sdk env (migrate_project_type entry) (setdefault_domain hass)
    = (Return false, w') →
  (∀ dom, data hass !! DOMAIN = Some dom →
          dom !! ConfigEntry.entry_id entry = None) →
  (async_setup_entry env hass entry).1
    = (Raise (KeyError (ConfigEntry.entry_id entry)), setdefault_domain hass)
  ∧ (data hass !! DOMAIN = None →
     data (async_setup_entry env hass entry).1.2 = <[DOMAIN := ∅]> (data hass)).
Proof.
  intros Hinit Hfresh.
  pose proof (init_false_world _ _ _ _ Hinit) as ->.
  assert ((async_setup_entry env hass entry).1
          = (Raise (KeyError (ConfigEntry.entry_id entry)), setdefault_domain hass))
    as Hres.
  { unfold async_setup_entry, setup_after_migration. simpl.
    unfold bind at 1. rewrite Hinit.
    unfold bind at 1. unfold pop_entry, bind, hass_data, getitem.
    rewrite setdefault_domain_lookup, migrate_entry_id.
    destruct (data hass !! DOMAIN) as [dom|] eqn:Hdom; simpl.
    - by rewrite (Hfresh dom eq_refl).
    - by rewrite lookup_empty. }
  split; [exact Hres |].
  intros Hnone. rewrite Hres. simpl. unfold setdefault_domain. by rewrite Hnone.
Qed.

(** C10: an entry whose data has the legacy [CONF_PROJECT_TYPE] key is
    rewritten before initialization: afterwards [CONF_AUTH_TYPE] maps to the
    old [CONF_PROJECT_TYPE] value, [CONF_PROJECT_TYPE] is absent, every
    other key is as it was, and it is the rewritten entry that the rest of
    the setup, [_init_tuya_sdk] included, runs on. *)
Theorem async_setup_entry_migrates
    (env : Env) (hass : World) (entry : ConfigEntry) (v : Value) :
  CONF_AUTH_TYPE ≠ CONF_PROJECT_TYPE →
  ConfigEntry.data entry !! CONF_PROJECT_TYPE = Some v →
  let r := async_setup_entry env hass entry in
  let entry' := r.2 in
  ConfigEntry.data entry' !! CONF_AUTH_TYPE = Some v
  ∧ ConfigEntry.data entry' !! CONF_PROJECT_TYPE = None
  ∧ (∀ k, k ≠ CONF_AUTH_TYPE → k ≠ CONF_PROJECT_TYPE →
          ConfigEntry.data entry' !! k = ConfigEntry.data entry !! k)
  ∧ ConfigEntry.entry_id entry' = ConfigEntry.entry_id entry
  ∧ r.1 = setup_after_migration env entry' (setdefault_domain hass).
Proof.
  intros Hne Hv r entry'. subst r entry'.
  unfold async_setup_entry. simpl.
  unfold migrate_project_type. rewrite Hv. simpl.
  split; [| split; [| split; [| split]]].
  - rewrite lookup_delete_ne by congruence. apply lookup_insert_eq.
  - apply lookup_delete_eq.
  - intros k Hk1 Hk2. rewrite lookup_delete_ne by congruence.
    by rewrite lookup_insert_ne by congruence.
  - done.
  - done.
Qed.

End SetupClaims.

(** * Closed examples *)

Section Examples.
#[local] Existing Instance ExampleConst.

Ltac by_computation := vm_compute; first [reflexivity | discriminate | done].

(** C1, counterexample: X has a registry entry; [remove_device] for X is
    followed by [add_device] for X before the removal runs; when the removal
    runs it deletes the entry and X is no longer in [device_ids]. *)
Lemma add_after_remove_loses_device :
  let w := world_X_registered in
  let w' := run_job (add_device (remove_device w "X") device_X) in
  jobs w = [] ∧ ("X" ∉ device_ids w')
  ∧ devices w !! "reg-x" = Some (mkEntry [("tuya", "X")])
  ∧ devices w' !! "reg-x" = None.
Proof.
  cbv zeta. split; [reflexivity |]. split; [| split].
  - intros Hin. vm_compute in Hin. discriminate.
  - by_computation.
  - by_computation.
Qed.

Lemma add_after_remove_race_witness :
  jobs world_X_unregistered = []
  ∧ (∀ k e, devices world_X_unregistered !! k = Some e →
            ("tuya", "X") ∉ identifiers e)
  ∧ "X" ∈ device_ids
            (run_job (add_device (remove_device world_X_unregistered "X") device_X))
  ∧ devices (run_job (add_device (remove_device world_X_unregistered "X") device_X))
    = devices world_X_unregistered.
Proof.
  assert (∀ k e, devices world_X_unregistered !! k = Some e →
                 (DOMAIN, id device_X) ∉ identifiers e) as Hno.
  { intros k e Hk. simpl in Hk. by rewrite lookup_empty in Hk. }
  split; [reflexivity |]. split; [exact Hno |].
  destruct (add_after_remove_race world_X_unregistered device_X eq_refl Hno)
    as (_ & Hin & Hdev & _).
  split; [exact Hin | exact Hdev].
Defined.

Lemma add_device_single_session_witness :
  only_current_active world_X_registered
  ∧ Forall point_ok (add_devices_trace world_X_registered [device_X; device_Y]).
Proof.
  assert (only_current_active world_X_registered) as Hw.
  { intros i q Hi Ha. destruct i as [|i]; [done |].
    simpl in Hi. by rewrite lookup_nil in Hi. }
  split; [exact Hw |].
  exact (add_device_single_session world_X_registered [device_X; device_Y] Hw).
Defined.

(** C3, failing input: nothing set up yet, a well-formed entry, and a login
    response with ["success": False]. *)
Lemma async_setup_entry_login_failure_witness :
  _init_tuya_sdk env_login_refused (migrate_project_type entry_current)
                 (setdefault_domain world_fresh)
    = (Return false, setdefault_domain world_fresh)
  ∧ (async_setup_entry env_login_refused world_fresh entry_current).1
    = (Raise (KeyError "entry1"), setdefault_domain world_fresh)
  ∧ data world_fresh = ∅
  ∧ data (async_setup_entry env_login_refused world_fresh entry_current).1.2
    = {["tuya" := ∅]}.
Proof.
  assert (_init_tuya_sdk env_login_refused (migrate_project_type entry_current)
                         (setdefault_domain world_fresh)
          = (Return false, setdefault_domain world_fresh)) as Hinit
    by by_computation.
  assert (∀ dom, data world_fresh !! DOMAIN = Some dom →
                 dom !! ConfigEntry.entry_id entry_current = None) as Hfresh.
  { intros dom Hdom. simpl in Hdom. by rewrite lookup_empty in Hdom. }
  destruct (async_setup_entry_login_failure
              env_login_refused world_fresh entry_current _ Hinit Hfresh)
    as [Hres Hdata].
  split; [exact Hinit |]. split; [exact Hres |]. split; [reflexivity |].
  rewrite Hdata by apply lookup_empty. by_computation.
Defined.

(** C5, counterexample: only X is tracked; a status update for Y returns
    without adding Y, without any signal, and without touching the
    sessions. *)
Lemma update_device_unknown_not_added :
  let w := world_X_unregistered in
  let r := update_device device_Y w in
  ("Y" ∉ device_ids w) ∧ r.1 = Return tt
  ∧ ("Y" ∉ device_ids r.2) ∧ signals r.2 = [] ∧ sessions r.2 = sessions w
  ∧ mq r.2 = mq w.
Proof. cbv zeta. repeat split; by_computation. Qed.

Lemma update_device_unknown_is_dropped_witness :
  ("Y" ∉ device_ids world_X_unregistered)
  ∧ update_device device_Y world_X_unregistered = (Return tt, world_X_unregistered).
Proof.
  assert ("Y" ∉ device_ids world_X_unregistered) as Hnot.
  { intros Hin. vm_compute in Hin. discriminate. }
  split; [exact Hnot |].
  exact (update_device_unknown_is_dropped device_Y world_X_unregistered Hnot).
Defined.

(** C6, counterexample: X is in [device_ids] but not a key of [device_map];
    the status update raises [KeyError] before any signal is sent. *)
Lemma update_device_raises_before_send :
  let w := world_X_not_in_map in
  let r := update_device device_X w in
  "X" ∈ device_ids w ∧ r.1 = Raise (KeyError "X") ∧ signals r.2 = signals w.
Proof. cbv zeta. repeat split; by_computation. Qed.

Lemma update_device_sends_once_witness :
  "X" ∈ device_ids world_X_unregistered
  ∧ is_Some (device_map world_X_unregistered !! "X")
  ∧ update_device device_X world_X_unregistered
    = (Return tt,
       set_signals [mkSignal "tuya_entry_update_X" []] world_X_unregistered).
Proof.
  assert ("X" ∈ device_ids world_X_unregistered) as Hin by by_computation.
  assert (is_Some (device_map world_X_unregistered !! id device_X)) as Hmap.
  { exists device_X. by_computation. }
  split; [exact Hin |]. split; [exact Hmap |].
  exact (update_device_sends_once device_X world_X_unregistered Hin Hmap).
Defined.

(** C8, counterexample: X is tracked but has no registry entry; the
    removal, queued and run with no add in between, leaves X in
    [device_ids]. *)
Lemma async_remove_device_keeps_unregistered :
  let w := world_X_unregistered in
  "X" ∈ device_ids w
  ∧ "X" ∈ device_ids (async_remove_device w "X")
  ∧ "X" ∈ device_ids (run_job (remove_device w "X")).
Proof. cbv zeta. repeat split; by_computation. Qed.

Lemma async_remove_device_effect_witness :
  (∃ k e, devices world_X_registered !! k = Some e ∧ ("tuya", "X") ∈ identifiers e)
  ∧ ("X" ∉ device_ids (async_remove_device world_X_registered "X")).
Proof.
  assert (∃ k e, devices world_X_registered !! k = Some e
                 ∧ (DOMAIN, "X") ∈ identifiers e) as Hex.
  { exists "reg-x", (mkEntry [("tuya", "X")]). split; [by_computation |].
    simpl. apply list_elem_of_singleton. reflexivity. }
  split; [exact Hex |].
  destruct (async_remove_device_effect world_X_registered "X") as [Hpresent _].
  exact (proj1 (Hpresent Hex)).
Defined.

Lemma async_setup_entry_migrates_witness :
  CONF_AUTH_TYPE ≠ CONF_PROJECT_TYPE
  ∧ ConfigEntry.data entry_legacy !! CONF_PROJECT_TYPE = Some (VInt 0)
  ∧ ConfigEntry.data
      (async_setup_entry env_login_refused world_fresh entry_legacy).2
    !! CONF_AUTH_TYPE = Some (VInt 0)
  ∧ ConfigEntry.data
      (async_setup_entry env_login_refused world_fresh entry_legacy).2
    !! CONF_PROJECT_TYPE = None.
Proof.
  assert (CONF_AUTH_TYPE ≠ CONF_PROJECT_TYPE) as Hne by discriminate.
  assert (ConfigEntry.data entry_legacy !! CONF_PROJECT_TYPE = Some (VInt 0))
    as Hv by by_computation.
  destruct (async_setup_entry_migrates
              env_login_refused world_fresh entry_legacy (VInt 0) Hne Hv)
    as (Hauth & Hproj & _).
  split; [exact Hne |]. split; [exact Hv |]. split; [exact Hauth | exact Hproj].
Defined.

End Examples.

(** * Further properties *)

(** ** More about pruning *)
Section CleanupMore.
Context `{Const}.
Implicit Types (device_map : gmap string TuyaDevice)
               (devices : gmap string DeviceEntry).

Lemma stale_antitone device_map device_map' e :
  device_map ⊆ device_map' → stale device_map' e → stale device_map e.
Proof.
  intros Hsub (x & Hin & Hx). exists x. split; [done |].
  by eapply lookup_weaken_None.
Qed.

(** X1: the inner loop stops at the first stale identifier, but which
    identifier a Python set yields first does not matter: visiting the
    identifiers in any other order leaves the same registry. *)
Theorem cleanup_entry_order_irrelevant device_map devices dev_id
    (items items' : list (string * string)) :
  items ≡ₚ items' →
  cleanup_entry device_map devices dev_id items
  = cleanup_entry device_map devices dev_id items'.
Proof.
  intros Hp. rewrite !cleanup_entry_spec.
  destruct (existsb (stale_item device_map) items) eqn:Hex.
  - apply existsb_exists in Hex as (x & Hin & Hx).
    assert (existsb (stale_item device_map) items' = true) as ->; [| done].
    apply existsb_exists. exists x. split; [| done].
    apply list_elem_of_In. rewrite <- Hp. by apply list_elem_of_In.
  - destruct (existsb (stale_item device_map) items') eqn:Hex'; [| done].
    apply existsb_exists in Hex' as (x & Hin & Hx).
    assert (existsb (stale_item device_map) items = true) as Habs; [| congruence].
    apply existsb_exists. exists x. split; [| done].
    apply list_elem_of_In. rewrite Hp. by apply list_elem_of_In.
Qed.

(** X2: pruning only ever removes entries, and a directory that knows more
    devices prunes less: if every device of one directory is in another,
    whatever survives pruning against the first survives pruning against
    the second. *)
Theorem cleanup_device_registry_monotone device_map device_map' devices :
  device_map ⊆ device_map' →
  cleanup_device_registry device_map devices
    ⊆ cleanup_device_registry device_map' devices
  ∧ cleanup_device_registry device_map' devices ⊆ devices.
Proof.
  intros Hsub. split; apply map_subseteq_spec; intros k e Hk.
  - apply cleanup_lookup in Hk as [Hk Hns]. apply cleanup_lookup.
    split; [done |]. intros Hst. apply Hns. by eapply stale_antitone.
  - by apply cleanup_lookup in Hk as [Hk _].
Qed.

(** X3: pruning leaves the registry as it is exactly when no entry is
    stale; otherwise it returns a different registry. *)
Theorem cleanup_device_registry_fixpoint device_map devices :
  cleanup_device_registry device_map devices = devices ↔
  ∀ k e, devices !! k = Some e → ¬ stale device_map e.
Proof.
  split.
  - intros Heq k e Hk. rewrite <- Heq in Hk.
    by apply cleanup_lookup in Hk as [_ Hns].
  - intros Hall. apply map_eq. intros k. apply option_eq. intros e.
    rewrite cleanup_lookup. split; [by intros [? _] |].
    intros Hk. split; [done | by eapply Hall].
Qed.

End CleanupMore.

(** ** More about the listener *)
Section ListenerMore.
Context `{Const}.

(** X4: a removal is confined to its identity: registry entries that are
    not identified by [(DOMAIN, X)] are kept, at most one entry goes, and
    the membership of every other identity in [device_ids] is as before. *)
Theorem async_remove_device_confined (w : World) (X : string) :
  let w' := async_remove_device w X in
  (∀ k e, devices w !! k = Some e → (DOMAIN, X) ∉ identifiers e →
          devices w' !! k = Some e)
  ∧ (∀ k1 k2, is_Some (devices w !! k1) → devices w' !! k1 = None →
              is_Some (devices w !! k2) → devices w' !! k2 = None → k1 = k2)
  ∧ (∀ Y, Y ≠ X → Y ∈ device_ids w' ↔ Y ∈ device_ids w)
  ∧ jobs w' = jobs w ∧ signals w' = signals w ∧ sessions w' = sessions w.
Proof.
  intros w'. subst w'. unfold async_remove_device.
  destruct (device_registry.async_get_device (devices w) (DOMAIN, X))
    as [[k0 e0]|] eqn:Hget.
  - apply async_get_device_Some in Hget as [Hk0 Hid0]. simpl.
    unfold device_registry.async_remove_device.
    split; [| split; [| split]].
    + intros k e Hk Hnot. rewrite lookup_delete_ne; [done |].
      intros ->. congruence.
    + intros k1 k2 [e1 H1] Hn1 [e2 H2] Hn2.
      apply lookup_delete_None in Hn1 as [Hn1 | Hn1]; [| congruence].
      apply lookup_delete_None in Hn2 as [Hn2 | Hn2]; [| congruence].
      congruence.
    + intros Y HY. rewrite elem_of_difference, elem_of_singleton. tauto.
    + done.
  - split; [| split; [| split]]; try done.
    intros k1 k2 [e1 H1] Hn1. congruence.
Qed.

(** X5: once [add_device] has handled a device that the directory knows, a
    status update for it is routed: [update_device] returns normally and
    sends the per-device update signal right after the discovery signal. *)
Theorem update_after_add_is_routed (w : World) (device : TuyaDevice) :
  is_Some (device_map w !! id device) →
  let w1 := add_device w device in
  (update_device device w1).1 = Return tt
  ∧ signals (update_device device w1).2
    = signals w ++ [mkSignal TUYA_DISCOVERY_NEW [[id device]];
                    mkSignal (TUYA_HA_SIGNAL_UPDATE_ENTITY +:+ "_" +:+ id device) []].
Proof.
  intros Hmap w1.
  assert (id device ∈ device_ids w1) as Hin.
  { subst w1. rewrite add_device_device_ids.
    apply elem_of_union. left. by apply elem_of_singleton. }
  unfold update_device. rewrite decide_True by done.
  destruct Hmap as [d Hd].
  assert (device_map w1 !! id device = Some d) as Hd1 by exact Hd.
  unfold bind, getitem. rewrite Hd1. simpl.
  split; [done |]. by rewrite <- app_assoc.
Qed.

(** X6: [add_device] does not look at [device_ids] first.  For a device
    that is already tracked the identity set stays the same, yet a removal
    is queued, the discovery signal is sent again, one more session object
    is constructed, and the device manager is switched to it. *)
Theorem add_device_again (w : World) (device : TuyaDevice) :
  id device ∈ device_ids w →
  let w1 := add_device w device in
  device_ids w1 = device_ids w
  ∧ jobs w1 = jobs w ++ [JobRemoveDevice (id device)]
  ∧ signals w1 = signals w ++ [mkSignal TUYA_DISCOVERY_NEW [[id device]]]
  ∧ length (sessions w1) = S (length (sessions w))
  ∧ mq w1 = length (sessions w).
Proof.
  intros Hin w1. subst w1.
  split; [| split; [done | split; [done | split]]].
  - rewrite add_device_device_ids. apply set_eq. intros x.
    rewrite elem_of_union, elem_of_singleton. split; [| tauto].
    intros [-> | Hx]; done.
  - simpl. rewrite !length_alter, length_app, length_alter. simpl. lia.
  - simpl. by rewrite length_alter.
Qed.

End ListenerMore.

(** ** More about setup and unload *)
Section SetupMore.
Context `{Const}.

Lemma init_true_world env entry w w' :
  _init_tuya_sdk env entry w = (Return true, w') →
  ∃ a dom, data w !! DOMAIN = Some dom ∧ w' = init_world env entry a dom w.
Proof.
  unfold _init_tuya_sdk, bind, getitem, ret, raise, exec, hass_data.
  intros Heq.
  repeat match type of Heq with
         | context [connect_args ?a ?d ?w0] =>
             let Hc := fresh "Hc" in
             destruct (connect_args a d w0) as [[?|?] ?] eqn:Hc;
             apply connect_args_world in Hc; subst
         | context [match ?x with _ => _ end] => destruct x eqn:?
         end;
    repeat match goal with
           | Hx : context [match ?x with _ => _ end] |- _ => destruct x eqn:?
           end;
    simplify_eq.
  match goal with Hn : mq_new _ _ = _ |- _ => unfold mq_new in Hn; simplify_eq end.
  eexists _, _. split; [eassumption |]. reflexivity.
Qed.

(** The loop over [device_map.values()] adds the [id] of every device of
    the directory to [device_ids] and touches nothing else. *)
Lemma register_device_ids_spec w :
  register_device_ids w = set_device_ids (device_ids (register_device_ids w)) w
  ∧ ∀ x, x ∈ device_ids (register_device_ids w) ↔
         x ∈ device_ids w ∨ ∃ k d, device_map w !! k = Some d ∧ id d = x.
Proof.
  unfold register_device_ids.
  assert (∀ (l : list (string * TuyaDevice)) w0,
            let w1 := foldl (λ w '(_, device),
                               set_device_ids ({[id device]} ∪ device_ids w) w) w0 l in
            w1 = set_device_ids (device_ids w1) w0
            ∧ ∀ x, x ∈ device_ids w1 ↔
                   x ∈ device_ids w0 ∨ ∃ k d, (k, d) ∈ l ∧ id d = x) as Hgen.
  { induction l as [|[k d] l IH]; intros w0; simpl.
    - split; [by destruct w0 |]. intros x. split; [by left |].
      intros [Hx | (k & d & Hin & _)]; [done |]. by apply elem_of_nil in Hin.
    - destruct (IH (set_device_ids ({[id d]} ∪ device_ids w0) w0)) as [Heq Hmem].
      split; [rewrite Heq at 1; reflexivity |].
      intros x. rewrite Hmem. simpl. rewrite elem_of_union, elem_of_singleton.
      split.
      + intros [[-> | Hx] | (k' & d' & Hin & Hx)].
        * right. exists k, d. split; [left | done].
        * by left.
        * right. exists k', d'. split; [by right | done].
      + intros [Hx | (k' & d' & Hin & Hx)]; [left; by right |].
        apply elem_of_cons in Hin as [Heq' | Hin].
        * inversion Heq'; subst. left. by left.
        * right. by exists k', d'. }
  destruct (Hgen (map_to_list (device_map w)) w) as [Heq Hmem].
  split; [exact Heq |]. intros x. rewrite Hmem.
  split; intros [Hx | (k & d & Hin & Hx)]; try (by left); right; exists k, d;
    (split; [| done]); by apply elem_of_map_to_list.
Qed.

(** X7: after a successful [_init_tuya_sdk] the device manager's directory
    is what [update_device_cache] loaded, and [device_ids] holds exactly
    the [id]s of the devices in it (the [id] attribute of each value, not
    the dict key), whatever was tracked before. *)
Theorem init_registers_directory_ids env entry w w' :
  _init_tuya_sdk env entry w = (Return true, w') →
  device_map w' = update_device_cache env
  ∧ ∀ x, x ∈ device_ids w' ↔
         ∃ k d, update_device_cache env !! k = Some d ∧ id d = x.
Proof.
  intros Hinit. apply init_true_world in Hinit as (a & dom & _ & ->).
  unfold init_world. cbv zeta.
  match goal with
  | |- context [register_device_ids ?w0] =>
      destruct (register_device_ids_spec w0) as [Heq Hmem]
  end.
  split.
  - rewrite Heq. reflexivity.
  - intros x. etrans; [exact (Hmem x) |]. simpl. split.
    + intros [Hx | Hx]; [| done]. by apply not_elem_of_empty in Hx.
    + intros Hx. by right.
Qed.

(** X8: a successful [_init_tuya_sdk] prunes the registry against the
    directory it has just loaded: afterwards no entry is stale with respect
    to the new [device_map], entries of other providers are all still
    there, and nothing was added. *)
Theorem init_prunes_registry env entry w w' :
  _init_tuya_sdk env entry w = (Return true, w') →
  devices w' = cleanup_device_registry (update_device_cache env) (devices w)
  ∧ (∀ k e, devices w' !! k = Some e → ¬ stale (device_map w') e)
  ∧ (∀ k e, devices w !! k = Some e → foreign e → devices w' !! k = Some e)
  ∧ devices w' ⊆ devices w.
Proof.
  intros Hinit.
  apply init_true_world in Hinit as (a & dom & _ & ->).
  assert (device_map (init_world env entry a dom w) = update_device_cache env)
    as Hmap.
  { unfold init_world. cbv zeta.
    match goal with
    | |- context [register_device_ids ?w0] =>
        destruct (register_device_ids_spec w0) as [Heq _]
    end.
    rewrite Heq. reflexivity. }
  assert (devices (init_world env entry a dom w)
          = cleanup_device_registry (update_device_cache env) (devices w)) as Hdev.
  { unfold init_world. cbv zeta.
    match goal with
    | |- context [register_device_ids ?w0] =>
        destruct (register_device_ids_spec w0) as [Heq _]
    end.
    rewrite Heq. reflexivity. }
  rewrite Hmap, Hdev. split; [done |]. split; [| split].
  - intros k e Hk. by apply cleanup_lookup in Hk as [_ Hns].
  - intros k e Hk Hf. apply cleanup_lookup. split; [done |].
    by apply foreign_not_stale.
  - apply map_subseteq_spec. intros k e Hk.
    by apply cleanup_lookup in Hk as [Hk _].
Qed.

Lemma init_world_frame env entry a dom w :
  let w' := init_world env entry a dom w in
  data w' = <[DOMAIN := <[ConfigEntry.entry_id entry :=
                            mkData (length (sessions w)) (length (sessions w))
                                   (length (sessions w))]> dom]> (data w)
  ∧ platforms w' = platforms w ++ [(ConfigEntry.entry_id entry, PLATFORMS)]
  ∧ listener_attached w' = true
  ∧ jobs w' = jobs w ∧ signals w' = signals w.
Proof.
  unfold init_world. cbv zeta.
  match goal with
  | |- context [register_device_ids ?w0] =>
      destruct (register_device_ids_spec w0) as [Heq _]
  end.
  rewrite Heq. repeat split; reflexivity.
Qed.

(** What a successful setup leaves in [hass.data]. *)
Lemma setup_success_data env hass entry w' :
  _init_tuya_sdk env (migrate_project_type entry) (setdefault_domain hass)
    = (Return true, w') →
  ∃ t, data w' = <[DOMAIN := <[ConfigEntry.entry_id entry := t]>
                                (default ∅ (data hass !! DOMAIN))]> (data hass).
Proof.
  intros Hinit. apply init_true_world in Hinit as (a & dom & Hdom & ->).
  destruct (init_world_frame env (migrate_project_type entry) a dom
              (setdefault_domain hass)) as (Hdata & _).
  rewrite Hdata, migrate_entry_id.
  rewrite setdefault_domain_lookup in Hdom. simplify_eq.
  eexists. unfold setdefault_domain.
  destruct (data hass !! DOMAIN) eqn:Hd; simpl; [done |].
  by rewrite insert_insert_eq.
Qed.

(** X9: when [_init_tuya_sdk] succeeds, [async_setup_entry] returns [True]
    without touching [hass.data] again: the entry's tuple is stored under
    [hass.data[DOMAIN][entry_id]], the other entries of that dict and the
    other keys of [hass.data] are as before, the platforms are forwarded
    once for this entry, and the listener is attached. *)
Theorem async_setup_entry_success env hass entry w' :
  _init_tuya_sdk env (migrate_project_type entry) (setdefault_domain hass)
    = (Return true, w') →
  (async_setup_entry env hass entry).1 = (Return true, w')
  ∧ (∃ t, data w' = <[DOMAIN := <[ConfigEntry.entry_id entry := t]>
                                  (default ∅ (data hass !! DOMAIN))]> (data hass))
  ∧ platforms w' = platforms hass ++ [(ConfigEntry.entry_id entry, PLATFORMS)]
  ∧ listener_attached w' = true.
Proof.
  intros Hinit. split; [| split].
  - unfold async_setup_entry, setup_after_migration. simpl.
    unfold bind at 1. rewrite Hinit. reflexivity.
  - by eapply setup_success_data.
  - apply init_true_world in Hinit as (a & dom & Hdom & ->).
    destruct (init_world_frame env (migrate_project_type entry) a dom
                (setdefault_domain hass)) as (_ & Hplat & Hatt & _).
    rewrite Hplat, Hatt, migrate_entry_id. split; [| done].
    unfold setdefault_domain. by destruct (data hass !! DOMAIN).
Qed.



(** X11: the failure path of [async_setup_entry] returns [False] only in a
    process where [hass.data[DOMAIN]] already had the entry id as a key
    before the call; in every other process the call returns [True] or
    raises. *)
Theorem async_setup_entry_false_only_if_present env hass entry :
  (async_setup_entry env hass entry).1.1 = Return false →
  ∃ dom, data hass !! DOMAIN = Some dom
         ∧ is_Some (dom !! ConfigEntry.entry_id entry).
Proof.
  unfold async_setup_entry, setup_after_migration. simpl.
  unfold bind at 1.
  destruct (_init_tuya_sdk env (migrate_project_type entry) (setdefault_domain hass))
    as [[[|]|e] w1] eqn:Hinit; simpl; [discriminate | | discriminate].
  apply init_false_world in Hinit as ->.
  unfold bind at 1. unfold pop_entry, bind, hass_data, getitem.
  rewrite setdefault_domain_lookup, migrate_entry_id.
  destruct (data hass !! DOMAIN) as [dom|] eqn:Hdom; simpl.
  - destruct (dom !! ConfigEntry.entry_id entry) eqn:Hid; [| discriminate].
    intros _. exists dom. split; [done | eauto].
  - rewrite lookup_empty. discriminate.
Qed.

(** X12: whatever the outcome of [async_setup_entry], the entry it leaves
    has no [CONF_PROJECT_TYPE] key; an entry that had none is left exactly
    as it was, so setting the same entry up again does not rewrite it. *)
Theorem async_setup_entry_no_legacy_key env hass entry :
  let entry' := (async_setup_entry env hass entry).2 in
  ConfigEntry.data entry' !! CONF_PROJECT_TYPE = None
  ∧ (ConfigEntry.data entry !! CONF_PROJECT_TYPE = None → entry' = entry)
  ∧ ∀ env2 hass2, (async_setup_entry env2 hass2 entry').2 = entry'.
Proof.
  intros entry'. subst entry'. unfold async_setup_entry. simpl.
  assert (ConfigEntry.data (migrate_project_type entry) !! CONF_PROJECT_TYPE = None)
    as Hnone.
  { unfold migrate_project_type.
    destruct (ConfigEntry.data entry !! CONF_PROJECT_TYPE) eqn:Hp; simpl.
    - apply lookup_delete_eq.
    - done. }
  split; [done |]. split.
  - intros Hp. unfold migrate_project_type. by rewrite Hp.
  - intros _ _. unfold migrate_project_type at 1. by rewrite Hnone.
Qed.

(** With the API parameters present and the login arguments read, the
    outcome of [_init_tuya_sdk] is decided by the login response alone. *)
Lemma init_outcome env entry w v auth e i s a :
  ConfigEntry.data entry !! CONF_AUTH_TYPE = Some v →
  AuthType_of env v = Some auth →
  ConfigEntry.data entry !! CONF_ENDPOINT = Some e →
  ConfigEntry.data entry !! CONF_ACCESS_ID = Some i →
  ConfigEntry.data entry !! CONF_ACCESS_SECRET = Some s →
  connect_args auth (ConfigEntry.data entry) w = (Return a, w) →
  is_Some (data w !! DOMAIN) →
  (_init_tuya_sdk env entry w).1
  = Return (negb (login_failed (connect env (mkAPI e i s auth "hass") a))).
Proof.
  intros Hv Hauth He Hi Hs Ha [dom Hdom].
  unfold _init_tuya_sdk, bind, getitem, ret, exec, hass_data.
  rewrite Hv, Hauth, He, Hi, Hs, Ha.
  destruct (login_failed _); simpl; [done |].
  by rewrite Hdom.
Qed.

Lemma login_failed_true response :
  login_failed response = true ↔
  response !! "success" = None ∨ response !! "success" = Some (VBool false).
Proof.
  unfold login_failed.
  destruct (response !! "success") as [[| [|] | |]|]; simpl;
    split; try done; try (by intros [? | ?]); eauto.
Qed.

(** X13: which keys the login reads depends on the auth type.  With
    [AuthType.CUSTOM] only username and password are read and passed to
    [connect], so an entry without country code and app type sets up
    without a [KeyError]; with any other auth type all four are read and
    passed, and a missing country code raises [KeyError] before [connect]
    is called, leaving everything unchanged. *)
Theorem init_login_arguments env entry w v auth e i s u p :
  ConfigEntry.data entry !! CONF_AUTH_TYPE = Some v →
  AuthType_of env v = Some auth →
  ConfigEntry.data entry !! CONF_ENDPOINT = Some e →
  ConfigEntry.data entry !! CONF_ACCESS_ID = Some i →
  ConfigEntry.data entry !! CONF_ACCESS_SECRET = Some s →
  ConfigEntry.data entry !! CONF_USERNAME = Some u →
  ConfigEntry.data entry !! CONF_PASSWORD = Some p →
  is_Some (data w !! DOMAIN) →
  (auth = CUSTOM →
     (_init_tuya_sdk env entry w).1
     = Return (negb (login_failed (connect env (mkAPI e i s auth "hass") [u; p]))))
  ∧ (auth ≠ CUSTOM → ∀ c t,
       ConfigEntry.data entry !! CONF_COUNTRY_CODE = Some c →
       ConfigEntry.data entry !! CONF_APP_TYPE = Some t →
       (_init_tuya_sdk env entry w).1
       = Return (negb (login_failed
                         (connect env (mkAPI e i s auth "hass") [u; p; c; t]))))
  ∧ (auth ≠ CUSTOM →
       ConfigEntry.data entry !! CONF_COUNTRY_CODE = None →
       _init_tuya_sdk env entry w = (Raise (KeyError CONF_COUNTRY_CODE), w)).
Proof.
  intros Hv Hauth He Hi Hs Hu Hp Hdom. split; [| split].
  - intros Hcustom. eapply init_outcome; try eassumption.
    unfold connect_args, bind, getitem, ret.
    rewrite decide_True by done. by rewrite Hu, Hp.
  - intros Hnc c t Hc Ht. eapply init_outcome; try eassumption.
    unfold connect_args, bind, getitem, ret.
    rewrite decide_False by done. by rewrite Hu, Hp, Hc, Ht.
  - intros Hnc Hc.
    unfold _init_tuya_sdk, bind, getitem, ret, raise.
    rewrite Hv, Hauth, He, Hi, Hs.
    unfold connect_args, bind, getitem, ret, raise.
    rewrite decide_False by done. by rewrite Hu, Hp, Hc.
Qed.

(** X14: the login counts as failed exactly when the response has no
    ["success"] key or has the boolean [False] under it.  Any other value,
    [None] and [0] included, lets [_init_tuya_sdk] go on and return
    [True]. *)
Theorem init_false_iff_success_False env entry w v auth e i s a :
  ConfigEntry.data entry !! CONF_AUTH_TYPE = Some v →
  AuthType_of env v = Some auth →
  ConfigEntry.data entry !! CONF_ENDPOINT = Some e →
  ConfigEntry.data entry !! CONF_ACCESS_ID = Some i →
  ConfigEntry.data entry !! CONF_ACCESS_SECRET = Some s →
  connect_args auth (ConfigEntry.data entry) w = (Return a, w) →
  is_Some (data w !! DOMAIN) →
  let response := connect env (mkAPI e i s auth "hass") a in
  ((_init_tuya_sdk env entry w).1 = Return false ↔
     response !! "success" = None ∨ response !! "success" = Some (VBool false))
  ∧ ((_init_tuya_sdk env entry w).1 = Return true ↔
     ∃ x, response !! "success" = Some x ∧ x ≠ VBool false).
Proof.
  intros Hv Hauth He Hi Hs Ha Hdom response.
  rewrite (init_outcome env entry w v auth e i s a) by done.
  fold response. rewrite <- login_failed_true.
  split.
  - destruct (login_failed response); simpl; split; congruence.
  - destruct (login_failed response) eqn:Hf; simpl.
    + split; [discriminate |]. intros (x & Hx & Hne).
      apply login_failed_true in Hf as [Hf | Hf]; congruence.
    + split; [intros _ | done].
      destruct (response !! "success") as [x|] eqn:Hx.
      * exists x. split; [done |]. intros ->.
        assert (login_failed response = true) as Habs
          by (apply login_failed_true; by right).
        congruence.
      * assert (login_failed response = true) as Habs
          by (apply login_failed_true; by left).
        congruence.
Qed.

(** Popping an entry that is there: the entry goes, and the dict under the
    domain goes with it when that leaves it empty. *)
Lemma pop_entry_present domain entry_id w d t :
  data w !! domain = Some d → d !! entry_id = Some t →
  pop_entry domain entry_id w
  = (Return tt,
     set_data (if decide (delete entry_id d = ∅)
               then delete domain (data w)
               else <[domain := delete entry_id d]> (data w)) w).
Proof.
  intros Hd Ht. unfold pop_entry, bind, hass_data, getitem, exec, ret.
  rewrite Hd, Ht. cbn [data set_data]. rewrite lookup_insert_eq.
  case_decide.
  - cbn [data set_data]. by rewrite delete_insert_eq.
  - done.
Qed.

(** The world an unload that is carried out leaves. *)
Lemma async_unload_entry_run env entry w dom t :
  async_unload_platforms env = true →
  data w !! DOMAIN = Some dom →
  dom !! ConfigEntry.entry_id entry = Some t →
  async_unload_entry env entry w
  = (Return true,
     set_data
       (if decide (delete (ConfigEntry.entry_id entry) dom = ∅)
        then delete DOMAIN (data w)
        else <[DOMAIN := delete (ConfigEntry.entry_id entry) dom]> (data w))
       (set_listener_attached false (mq_stop w (mq w)))).
Proof.
  intros Hun Hdom Ht.
  unfold async_unload_entry. rewrite Hun.
  unfold bind, hass_data, getitem, exec, ret. rewrite Hdom, Ht.
  rewrite (pop_entry_present DOMAIN (ConfigEntry.entry_id entry)
             (set_listener_attached false (mq_stop w (mq w))) dom t Hdom Ht).
  reflexivity.
Qed.


(** X16: when the platforms do not unload, [async_unload_entry] returns
    [False] and changes nothing; when they do but the entry is not in
    [hass.data], it raises [KeyError] before the session is stopped or the
    listener detached. *)
Theorem async_unload_entry_not_carried_out env entry w :
  (async_unload_platforms env = false →
     async_unload_entry env entry w = (Return false, w))
  ∧ (async_unload_platforms env = true → data w !! DOMAIN = None →
     async_unload_entry env entry w = (Raise (KeyError DOMAIN), w))
  ∧ (async_unload_platforms env = true →
     ∀ dom, data w !! DOMAIN = Some dom →
            dom !! ConfigEntry.entry_id entry = None →
            async_unload_entry env entry w
            = (Raise (KeyError (ConfigEntry.entry_id entry)), w)).
Proof.
  unfold async_unload_entry, bind, hass_data, getitem, ret, raise.
  split; [| split].
  - by intros ->.
  - intros -> Hdom. by rewrite Hdom.
  - intros -> dom Hdom Ht. by rewrite Hdom, Ht.
Qed.

Lemma async_setup_entry_true_init env hass entry w1 :
  (async_setup_entry env hass entry).1 = (Return true, w1) →
  _init_tuya_sdk env (migrate_project_type entry) (setdefault_domain hass)
  = (Return true, w1).
Proof.
  unfold async_setup_entry, setup_after_migration. simpl.
  unfold bind at 1.
  destruct (_init_tuya_sdk env (migrate_project_type entry) (setdefault_domain hass))
    as [[[|]|e] w'] eqn:Hinit; simpl.
  - unfold bind, ret. simpl. congruence.
  - unfold bind at 1.
    destruct (pop_entry DOMAIN _ w') as [[[]|e] w2]; simpl; discriminate.
  - discriminate.
Qed.

(** X17: setup followed by unload gives [hass.data] back.  If the entry id
    was not in [hass.data[DOMAIN]] before and [DOMAIN] was not present with
    an empty dict, then after a setup that returned [True] and an unload
    whose platforms unload, [hass.data] is what it was before the setup;
    and if no session was running before, none is running after. *)
Theorem setup_unload_round_trip env env2 hass entry w1 :
  (async_setup_entry env hass entry).1 = (Return true, w1) →
  async_unload_platforms env2 = true →
  (∀ dom, data hass !! DOMAIN = Some dom →
          dom ≠ ∅ ∧ dom !! ConfigEntry.entry_id entry = None) →
  let r := async_unload_entry env2 (async_setup_entry env hass entry).2 w1 in
  r.1 = Return true
  ∧ data r.2 = data hass
  ∧ (no_active (sessions hass) → no_active (sessions r.2)).
Proof.
  intros Hsetup Hun Hfresh r.
  apply async_setup_entry_true_init in Hsetup as Hinit.
  destruct (setup_success_data _ _ _ _ Hinit) as [t Hdata].
  assert ((async_setup_entry env hass entry).2 = migrate_project_type entry)
    as Hentry by reflexivity.
  set (eid := ConfigEntry.entry_id entry) in *.
  set (dom0 := default ∅ (data hass !! DOMAIN)) in *.
  assert (dom0 !! eid = None) as Hnone.
  { subst dom0. destruct (data hass !! DOMAIN) as [dom|] eqn:Hd; simpl.
    - by destruct (Hfresh dom eq_refl).
    - apply lookup_empty. }
  assert (data w1 !! DOMAIN = Some (<[eid := t]> dom0)) as Hdom1
    by (rewrite Hdata; apply lookup_insert_eq).
  assert (<[eid := t]> dom0 !! ConfigEntry.entry_id (migrate_project_type entry)
          = Some t) as Ht
    by (rewrite migrate_entry_id; apply lookup_insert_eq).
  subst r. rewrite Hentry.
  rewrite (async_unload_entry_run env2 (migrate_project_type entry) w1 _ t)
    by done.
  cbn [fst snd]. split; [done |]. split.
  - cbn [data set_data]. rewrite migrate_entry_id. fold eid.
    rewrite (delete_insert_id dom0 eid t Hnone), Hdata.
    subst dom0. destruct (data hass !! DOMAIN) as [dom|] eqn:Hdh; simpl.
    + destruct (Hfresh dom eq_refl) as [Hne _].
      rewrite decide_False by done.
      rewrite insert_insert_eq. by apply insert_id.
    + rewrite decide_True by done. by apply delete_insert_id.
  - intros Hno. cbn [sessions set_data set_listener_attached mq_stop set_sessions].
    apply stop_no_active.
    eapply init_true_single_session; [| exact Hinit].
    unfold setdefault_domain. by destruct (data hass !! DOMAIN).
Qed.


End SetupMore.

(** ** Setup, then updates *)
Section SetupThenUpdate.
Context `{Const}.

(** X19: after a successful [_init_tuya_sdk], a status update for any
    device that the directory holds under its own [id] is routed:
    [update_device] returns normally and sends that device's update signal,
    and nothing else changes. *)
Theorem update_after_setup_is_routed env entry w w' (device : TuyaDevice) :
  _init_tuya_sdk env entry w = (Return true, w') →
  update_device_cache env !! id device = Some device →
  update_device device w'
  = (Return tt,
     set_signals
       (signals w ++ [mkSignal (TUYA_HA_SIGNAL_UPDATE_ENTITY +:+ "_" +:+ id device) []])
       w').
Proof.
  intros Hinit Hdev.
  apply init_true_world in Hinit as (a & dom & _ & ->).
  assert (device_map (init_world env entry a dom w) = update_device_cache env
          ∧ signals (init_world env entry a dom w) = signals w
          ∧ id device ∈ device_ids (init_world env entry a dom w))
    as (Hmap & Hsig & Hin).
  { unfold init_world. cbv zeta.
    match goal with
    | |- context [register_device_ids ?w0] =>
        destruct (register_device_ids_spec w0) as [Heq Hmem]
    end.
    split; [rewrite Heq; reflexivity |].
    split; [rewrite Heq; reflexivity |].
    apply Hmem. right. exists (id device), device. split; [exact Hdev | done]. }
  unfold update_device. rewrite decide_True by done.
  unfold bind, getitem, exec, ret. rewrite Hmap, Hdev.
  unfold dispatcher_send. by rewrite Hsig.
Qed.

End SetupThenUpdate.

(** ** Closed examples for the further properties *)
Section MoreExamples.
#[local] Existing Instance ExampleConst.

Ltac compute_it := vm_compute; first [reflexivity | discriminate | done].

Lemma cleanup_entry_order_irrelevant_witness :
  [("tuya", "A"); ("tuya", "C")] ≡ₚ [("tuya", "C"); ("tuya", "A")]
  ∧ cleanup_entry scenario_directory scenario_registry "reg-a"
      [("tuya", "A"); ("tuya", "C")]
    = cleanup_entry scenario_directory scenario_registry "reg-a"
        [("tuya", "C"); ("tuya", "A")].
Proof.
  assert ([("tuya", "A"); ("tuya", "C")] ≡ₚ [("tuya", "C"); ("tuya", "A")])
    as Hp by apply perm_swap.
  split; [exact Hp |].
  exact (cleanup_entry_order_irrelevant scenario_directory scenario_registry
           "reg-a" _ _ Hp).
Defined.

Lemma cleanup_device_registry_monotone_witness :
  delete "B" scenario_directory ⊆ scenario_directory
  ∧ cleanup_device_registry (delete "B" scenario_directory) scenario_registry
    ⊆ cleanup_device_registry scenario_directory scenario_registry.
Proof.
  assert (delete "B" scenario_directory ⊆ scenario_directory) as Hsub
    by apply delete_subseteq.
  split; [exact Hsub |].
  exact (proj1 (cleanup_device_registry_monotone _ _ scenario_registry Hsub)).
Defined.

Lemma update_after_add_is_routed_witness :
  is_Some (device_map world_X_unregistered !! id device_X)
  ∧ (update_device device_X (add_device world_X_unregistered device_X)).1
    = Return tt.
Proof.
  assert (is_Some (device_map world_X_unregistered !! id device_X)) as Hmap.
  { exists device_X. compute_it. }
  split; [exact Hmap |].
  exact (proj1 (update_after_add_is_routed world_X_unregistered device_X Hmap)).
Defined.

Lemma add_device_again_witness :
  id device_X ∈ device_ids world_X_unregistered
  ∧ device_ids (add_device world_X_unregistered device_X)
    = device_ids world_X_unregistered
  ∧ length (sessions (add_device world_X_unregistered device_X)) = 2.
Proof.
  assert (id device_X ∈ device_ids world_X_unregistered) as Hin by compute_it.
  destruct (add_device_again world_X_unregistered device_X Hin)
    as (Hids & _ & _ & Hlen & _).
  split; [exact Hin |]. split; [exact Hids | exact Hlen].
Defined.

Lemma init_current_succeeds :
  _init_tuya_sdk env_login_ok (migrate_project_type entry_current)
                 (setdefault_domain world_fresh)
  = (Return true, world_set_up).
Proof. compute_it. Qed.

Lemma init_registers_directory_ids_witness :
  _init_tuya_sdk env_login_ok (migrate_project_type entry_current)
                 (setdefault_domain world_fresh)
    = (Return true, world_set_up)
  ∧ ("X" ∈ device_ids world_set_up ↔
     ∃ k d, update_device_cache env_login_ok !! k = Some d ∧ id d = "X").
Proof.
  split; [exact init_current_succeeds |].
  exact (proj2 (init_registers_directory_ids _ _ _ _ init_current_succeeds) "X").
Defined.

Lemma init_leftover_succeeds :
  _init_tuya_sdk env_login_ok entry_current world_leftover
  = (Return true, (_init_tuya_sdk env_login_ok entry_current world_leftover).2).
Proof. compute_it. Qed.

Lemma init_prunes_registry_witness :
  _init_tuya_sdk env_login_ok entry_current world_leftover
    = (Return true, (_init_tuya_sdk env_login_ok entry_current world_leftover).2)
  ∧ devices (_init_tuya_sdk env_login_ok entry_current world_leftover).2
    = cleanup_device_registry (update_device_cache env_login_ok)
                              (devices world_leftover).
Proof.
  split; [exact init_leftover_succeeds |].
  exact (proj1 (init_prunes_registry _ _ _ _ init_leftover_succeeds)).
Defined.

Lemma async_setup_entry_success_witness :
  _init_tuya_sdk env_login_ok (migrate_project_type entry_current)
                 (setdefault_domain world_fresh)
    = (Return true, world_set_up)
  ∧ (async_setup_entry env_login_ok world_fresh entry_current).1
    = (Return true, world_set_up).
Proof.
  split; [exact init_current_succeeds |].
  exact (proj1 (async_setup_entry_success _ _ _ _ init_current_succeeds)).
Defined.



Lemma async_setup_entry_false_only_if_present_witness :
  (async_setup_entry env_login_refused world_leftover entry_current).1.1
    = Return false
  ∧ ∃ dom, data world_leftover !! DOMAIN = Some dom
           ∧ is_Some (dom !! ConfigEntry.entry_id entry_current).
Proof.
  assert ((async_setup_entry env_login_refused world_leftover entry_current).1.1
          = Return false) as Hres by compute_it.
  split; [exact Hres |].
  exact (async_setup_entry_false_only_if_present _ _ _ Hres).
Defined.

Lemma init_login_arguments_witness :
  ConfigEntry.data entry_custom !! CONF_COUNTRY_CODE = None
  ∧ AuthType_of env_login_ok (VInt 1) = Some CUSTOM
  ∧ (_init_tuya_sdk env_login_ok entry_custom (setdefault_domain world_fresh)).1
    = Return (negb (login_failed
                      (connect env_login_ok
                         (mkAPI (VStr "e") (VStr "i") (VStr "s") CUSTOM "hass")
                         [VStr "u"; VStr "p"]))).
Proof.
  split; [compute_it |]. split; [reflexivity |].
  refine (proj1 (init_login_arguments env_login_ok entry_custom
                   (setdefault_domain world_fresh) (VInt 1) CUSTOM
                   (VStr "e") (VStr "i") (VStr "s") (VStr "u") (VStr "p")
                   _ _ _ _ _ _ _ _) eq_refl);
    first [compute_it | exists ∅; compute_it].
Defined.

Lemma init_false_iff_success_False_witness :
  connect env_login_none (mkAPI (VStr "e") (VStr "i") (VStr "s") CUSTOM "hass")
          [VStr "u"; VStr "p"] !! "success" = Some VNone
  ∧ (_init_tuya_sdk env_login_none entry_custom (setdefault_domain world_fresh)).1
    = Return true.
Proof.
  split; [compute_it |].
  refine (proj2 (proj2 (init_false_iff_success_False env_login_none entry_custom
                          (setdefault_domain world_fresh) (VInt 1) CUSTOM
                          (VStr "e") (VStr "i") (VStr "s") [VStr "u"; VStr "p"]
                          _ _ _ _ _ _ _)) _);
    first [compute_it | exists ∅; compute_it | idtac].
  exists VNone. split; [compute_it | discriminate].
Defined.


Lemma setup_unload_round_trip_witness :
  (async_setup_entry env_login_ok world_fresh entry_current).1
    = (Return true, world_set_up)
  ∧ data (async_unload_entry env_login_ok
            (async_setup_entry env_login_ok world_fresh entry_current).2
            world_set_up).2
    = data world_fresh.
Proof.
  assert ((async_setup_entry env_login_ok world_fresh entry_current).1
          = (Return true, world_set_up)) as Hsetup by compute_it.
  assert (∀ dom, data world_fresh !! DOMAIN = Some dom →
                 dom ≠ ∅ ∧ dom !! ConfigEntry.entry_id entry_current = None)
    as Hfresh.
  { intros dom Hdom. simpl in Hdom. by rewrite lookup_empty in Hdom. }
  split; [exact Hsetup |].
  exact (proj1 (proj2 (setup_unload_round_trip env_login_ok env_login_ok
                         world_fresh entry_current world_set_up
                         Hsetup eq_refl Hfresh))).
Defined.


Lemma update_after_setup_is_routed_witness :
  _init_tuya_sdk env_login_ok (migrate_project_type entry_current)
                 (setdefault_domain world_fresh)
    = (Return true, world_set_up)
  ∧ update_device_cache env_login_ok !! id device_X = Some device_X
  ∧ (update_device device_X world_set_up).1 = Return tt.
Proof.
  assert (update_device_cache env_login_ok !! id device_X = Some device_X)
    as Hdev by compute_it.
  split; [exact init_current_succeeds |]. split; [exact Hdev |].
  rewrite (update_after_setup_is_routed _ _ _ _ device_X
             init_current_succeeds Hdev).
  reflexivity.
Defined.

Lemma async_unload_entry_not_carried_out_witness :
  async_unload_platforms env_login_ok = true
  ∧ data world_fresh !! DOMAIN = None
  ∧ async_unload_entry env_login_ok entry_current world_fresh
    = (Raise (KeyError "tuya"), world_fresh).
Proof.
  assert (data world_fresh !! DOMAIN = None) as Hdom by apply lookup_empty.
  split; [reflexivity |]. split; [exact Hdom |].
  destruct (async_unload_entry_not_carried_out env_login_ok entry_current
              world_fresh) as (_ & Habsent & _).
  exact (Habsent eq_refl Hdom).
Defined.

End MoreExamples.
